(** * build_explanation.py: a shallow embedding

  The script loads a sequence classifier, runs SHAP and/or LIME over a
  validation set and dumps one record per example to JSON.  Everything
  numerical lives in external libraries (transformers, shap, lime,
  datasets); they appear below as the fields of a record [Env] and the
  script's own control flow is written out around them. *)

From Stdlib Require Import ZArith Ascii String List Lia.
From stdpp Require Import base decidable option list strings pretty gmap fin_maps.

Local Open Scope string_scope.
Local Open Scope list_scope.
Set Warnings "-register-all,-clear-no-such-hyp".

(** ** Python exceptions *)

Module Py.

Inductive exn_class :=
| BaseException | Exception
| TypeError | AttributeError | AssertionError | ValueError
| LookupError | IndexError | KeyError
| NameError | UnboundLocalError
| OSError | FileNotFoundError
| RuntimeError | NotImplementedError.

#[global] Instance exn_class_eq_dec : EqDecision exn_class.
Proof. solve_decision. Defined.

(** Method resolution order of the built-in classes above. *)
Definition mro (c : exn_class) : list exn_class :=
  match c with
  | BaseException => [BaseException]
  | Exception => [Exception; BaseException]
  | TypeError => [TypeError; Exception; BaseException]
  | AttributeError => [AttributeError; Exception; BaseException]
  | AssertionError => [AssertionError; Exception; BaseException]
  | ValueError => [ValueError; Exception; BaseException]
  | LookupError => [LookupError; Exception; BaseException]
  | IndexError => [IndexError; LookupError; Exception; BaseException]
  | KeyError => [KeyError; LookupError; Exception; BaseException]
  | NameError => [NameError; Exception; BaseException]
  | UnboundLocalError => [UnboundLocalError; NameError; Exception; BaseException]
  | OSError => [OSError; Exception; BaseException]
  | FileNotFoundError => [FileNotFoundError; OSError; Exception; BaseException]
  | RuntimeError => [RuntimeError; Exception; BaseException]
  | NotImplementedError => [NotImplementedError; RuntimeError; Exception; BaseException]
  end.

Record exn := mk_exn { exn_cls : exn_class; exn_msg : string }.

(** [except C as e] catches [e] when [isinstance e C]. *)
Definition isinstance (e : exn) (c : exn_class) : bool :=
  bool_decide (c ∈ mro (exn_cls e)).

(** Outcome of evaluating a Python expression or statement.  [Timeout] is
    the outcome of a loop model whose fuel ran out; it is shown
    unreachable for the loops of this program. *)
Inductive res (A : Type) :=
| Ret (a : A)
| Exc (e : exn)
| Timeout.
Arguments Ret {A} a.
Arguments Exc {A} e.
Arguments Timeout {A}.

(** [l[i]] on a Python list. *)
Definition getitem {A} (name : string) (l : list A) (i : nat) : res A :=
  match l !! i with
  | Some a => Ret a
  | None => Exc (mk_exn IndexError (name +:+ " index out of range"))
  end.

(** [d[k]] on a Python dict. *)
Definition getkey {A} (d : gmap string A) (k : string) : res A :=
  match d !! k with
  | Some a => Ret a
  | None => Exc (mk_exn KeyError k)
  end.

(** [s.startswith(p)] *)
Fixpoint startswith (s p : string) : bool :=
  match p, s with
  | EmptyString, _ => true
  | String c p', String d s' => if Ascii.eqb c d then startswith s' p' else false
  | String _ _, EmptyString => false
  end.

End Py.
Export Py.

(** ** The three regular expressions

  All three patterns of the script have the shape [L1 (C+) L2]: a literal,
  one capture group made of a greedy [+] over a character class, and a
  literal.  [re_search] is Python's backtracking search for that shape:
  start positions are tried from left to right; at a start position the
  group first takes the longest run of class characters and then gives
  characters back one at a time until the trailing literal matches. *)

Module Re.

Record pattern := mk_pattern {
  lit1 : list ascii;
  cls : ascii -> bool;
  lit2 : list ascii
}.

Definition is_alnum (c : ascii) : bool :=
  let n := nat_of_ascii c in
  (Nat.leb 48 n && Nat.leb n 57) || (Nat.leb 65 n && Nat.leb n 90)
  || (Nat.leb 97 n && Nat.leb n 122).

(** [.] matches everything except a newline. *)
Definition is_dot (c : ascii) : bool :=
  negb (Ascii.eqb c "010"%char).

(** [_([a-zA-Z0-9]+)\.pt] *)
Definition task_pat : pattern :=
  mk_pattern (list_ascii_of_string "_") is_alnum (list_ascii_of_string ".pt").
(** [teacher_(.+)_] *)
Definition teacher_pat : pattern :=
  mk_pattern (list_ascii_of_string "teacher_") is_dot (list_ascii_of_string "_").
(** [student_(.+)_] *)
Definition student_pat : pattern :=
  mk_pattern (list_ascii_of_string "student_") is_dot (list_ascii_of_string "_").

Fixpoint starts_with (p s : list ascii) : bool :=
  match p, s with
  | [], _ => true
  | c :: p', d :: s' => if Ascii.eqb c d then starts_with p' s' else false
  | _ :: _, [] => false
  end.

(** Length of the longest prefix of [s] made of class characters. *)
Fixpoint span (C : ascii -> bool) (s : list ascii) : nat :=
  match s with
  | c :: s' => if C c then S (span C s') else 0
  | [] => 0
  end.

(** Group lengths [k], [k-1], ..., [1] are tried in that order. *)
Fixpoint backtrack (L2 s : list ascii) (k : nat) : option (list ascii) :=
  match k with
  | 0 => None
  | S k' =>
      if starts_with L2 (drop k s) then Some (take k s)
      else backtrack L2 s k'
  end.

Definition match_at (p : pattern) (s : list ascii) : option (list ascii) :=
  if starts_with (lit1 p) s then
    let rest := drop (length (lit1 p)) s in
    backtrack (lit2 p) rest (span (cls p) rest)
  else None.

Fixpoint search_from (p : pattern) (s : list ascii) : option (list ascii) :=
  match match_at p s with
  | Some g => Some g
  | None =>
      match s with
      | [] => None
      | _ :: s' => search_from p s'
      end
  end.

(** [re.search(p, s)]; the result is [match.group(1)] when there is a
    match. *)
Definition re_search (p : pattern) (s : string) : option string :=
  string_of_list_ascii <$> search_from p (list_ascii_of_string s).

End Re.
Export Re.

(** ** Values, events and the script's monad *)

Section Program.

(** Floating-point numbers are only passed around by the script. *)
Variable Score : Type.
(** What [torch.load] returns. *)
Variable StateDict : Type.

(** Python values that end up in the datasets and in the JSON output. *)
Inductive value :=
| VInt (z : Z)
| VFloat (x : Score)
| VStr (s : string)
| VList (l : list value).

(** An explanation record is a Python dict with string keys; a result
    mapping is a dict from example index to record. *)
Abbreviation record := (gmap string value) (only parsing).
Abbreviation results := (gmap nat (gmap string value)) (only parsing).

(** Observable actions, in program order. *)
Inductive event :=
| Print (v : value)
| FromPretrained (name : string) (n_labels : nat)
| TorchLoad (path : string)
| LoadStateDict
| ModelTo
| TokenizerFromPretrained (name : string)
| TrainAndEvalSplit (task_name : string)
| ShapExplain (texts : list value)
| LimeExplain (text : value) (num_features num_samples : nat)
| MakeDirs (path : string)
| JsonDump (path : string) (obj : results).

(** A computation emits events and ends in a value, an exception or (for
    a loop out of fuel) a timeout. *)
Definition M (A : Type) : Type := (list event * res A)%type.

Definition ret {A} (a : A) : M A := ([], Ret a).
Definition bind {A B} (m : M A) (k : A -> M B) : M B :=
  match m with
  | (l1, Ret a) => let '(l2, r) := k a in (l1 ++ l2, r)
  | (l1, Exc e) => (l1, Exc e)
  | (l1, Timeout) => (l1, Timeout)
  end.
Definition emit (ev : event) : M unit := ([ev], Ret tt).
Definition lift {A} (r : res A) : M A := ([], r).
(** A call into a library: the call is logged, its outcome is the
    library's. *)
Definition call {A} (ev : event) (r : res A) : M A := ([ev], r).
Definition raise {A} (c : exn_class) (msg : string) : M A :=
  ([], Exc (mk_exn c msg)).

Definition rbind {A B} (r : res A) (k : A -> res B) : res B :=
  match r with
  | Ret a => k a
  | Exc e => Exc e
  | Timeout => Timeout
  end.

Definition log {A} (m : M A) : list event := fst m.
Definition outcome {A} (m : M A) : res A := snd m.

(** [for x in l: s = body x s] *)
Fixpoint for_each {A S} (l : list A) (body : A -> S -> M S) (s : S) : M S :=
  match l with
  | [] => ret s
  | x :: l' => bind (body x s) (for_each l' body)
  end.

End Program.

Abbreviation record Score := (gmap string (value Score)) (only parsing).
Abbreviation results Score := (gmap nat (gmap string (value Score))) (only parsing).

Arguments VInt {Score} z.
Arguments VFloat {Score} x.
Arguments VStr {Score} s.
Arguments VList {Score} l.
Arguments Print {Score} v.
Arguments FromPretrained {Score} name n_labels.
Arguments TorchLoad {Score} path.
Arguments LoadStateDict {Score}.
Arguments ModelTo {Score}.
Arguments TokenizerFromPretrained {Score} name.
Arguments TrainAndEvalSplit {Score} task_name.
Arguments ShapExplain {Score} texts.
Arguments LimeExplain {Score} text num_features num_samples.
Arguments MakeDirs {Score} path.
Arguments JsonDump {Score} path obj.
Arguments ret {Score A} a.
Arguments bind {Score A B} m k.
Arguments emit {Score} ev.
Arguments lift {Score A} r.
Arguments call {Score A} ev r.
Arguments raise {Score A} c msg.
Arguments rbind {A B} r k.
Arguments log {Score A} m.
Arguments outcome {Score A} m.
Arguments for_each {Score A S} l body s.

Notation "'let*' x ':=' m 'in' k" := (bind m (fun x => k))
(at level 10, x pattern, m at level 100, k at level 200,
 format "'let*'  x  ':='  m  'in' '//' k").
Notation "'let?' x ':=' m 'in' k" := (rbind m (fun x => k))
(at level 10, x pattern, m at level 100, k at level 200,
 format "'let?'  x  ':='  m  'in' '//' k").

(** ** The libraries the script calls *)

Section Libraries.

Variable Score : Type.
Variable StateDict : Type.

(** A rank-2 tensor: its second dimension and its rows. *)
Record tensor2 := mk_tensor2 {
  ncols : nat;
  trows : list (list Score)
}.

(** [t[:, 1]]: the bound is checked against the second dimension. *)
Definition select_column_1 (t : tensor2) : res (list Score) :=
  if decide (1 < ncols t) then
    match mapM (fun r : list Score => r !! 1) (trows t) with
    | Some col => Ret col
    | None => Exc (mk_exn IndexError "index 1 is out of bounds for dimension 1")
    end
  else Exc (mk_exn IndexError "index 1 is out of bounds for dimension 1").

(** What a tokenizer call returns: named integer tensors. *)
Definition encoding : Type := gmap string (list (list Z)).

(** [inputs.pop(k)] *)
Definition pop (inputs : encoding) (k : string) : res encoding :=
  match inputs !! k with
  | Some _ => Ret (delete k inputs)
  | None => Exc (mk_exn KeyError k)
  end.

(** A sequence-classification model.  [num_labels] is the value given to
    [from_pretrained]; the logits of a forward pass have that many
    columns. *)
Record Model := mk_Model {
  base_model_prefix : string;
  num_labels : nat;
  forward : encoding -> res (list (list Score))
}.

(** The logits of [model] called on the unpacked [inputs]. *)
Definition logits (model : Model) (inputs : encoding) : res tensor2 :=
  let? rows := forward model inputs in
  Ret (mk_tensor2 (num_labels model) rows).

Record Tokenizer := mk_Tokenizer {
  tokenize : list string -> res encoding
}.

(** The object returned by a SHAP explainer call on a batch. *)
Record Explanation := mk_Explanation {
  data : list (list string);
  values : list (list Score);
  base_values : list Score
}.

(** A [datasets.Dataset]: a table of named columns. *)
Record table := mk_table {
  num_rows : nat;
  columns : gmap string (list (value Score))
}.

(** Every column of a table has [num_rows] entries. *)
Definition table_wf (t : table) : Prop :=
  map_Forall (fun _ (c : list (value Score)) => length c = num_rows t) (columns t).

(** The three shapes the raw validation data takes in the script. *)
Inductive dataset :=
| HFDataset (t : table)
| ColumnDict (d : gmap string (list (value Score)))
| RowList (rows : list (gmap string (value Score))).

(** What iterating over a dataset yields: rows, or the keys of a dict. *)
Inductive item :=
| Row (r : gmap string (value Score))
| Key (k : string).

(** [dataset[k]] for a string [k] *)
Definition column (ds : dataset) (k : string) : res (list (value Score)) :=
  match ds with
  | HFDataset t => getkey (columns t) k
  | ColumnDict d => getkey d k
  | RowList _ =>
      Exc (mk_exn TypeError "list indices must be integers or slices, not str")
  end.

Definition row_at (cols : gmap string (list (value Score))) (i : nat)
  : gmap string (value Score) :=
  omap (fun c : list (value Score) => c !! i) cols.

Definition rows_of (t : table) : list (gmap string (value Score)) :=
  row_at (columns t) <$> seq 0 (num_rows t).

(** [iter(dataset)] *)
Definition iterate (ds : dataset) : list item :=
  match ds with
  | HFDataset t => Row <$> rows_of t
  | ColumnDict d => Key <$> (map_to_list d).*1
  | RowList rows => Row <$> rows
  end.

(** [t[k]] for an item of the iteration *)
Definition item_get (t : item) (k : string) : res (value Score) :=
  match t with
  | Row r => getkey r k
  | Key _ => Exc (mk_exn TypeError "string indices must be integers")
  end.

(** [l[a:b]] for [0 <= a <= b] *)
Definition slice {A} (l : list A) (a b : nat) : list A :=
  take (b - a) (drop a l).

(** [dataset[:n]] on a [datasets.Dataset]: a dict of sliced columns. *)
Definition table_head (t : table) (n : nat) : gmap string (list (value Score)) :=
  (fun c : list (value Score) => slice c 0 n) <$> columns t.

(** [Dataset.set_format(columns=cs)] and [Dataset.remove_columns(cs)]
    reject names that are not columns. *)
Definition set_format (t : table) (cs : list string) : res table :=
  if forallb (fun c => bool_decide (is_Some (columns t !! c))) cs then Ret t
  else Exc (mk_exn ValueError "Columns not in the dataset").
Definition remove_columns (t : table) (cs : list string) : res table :=
  if forallb (fun c => bool_decide (is_Some (columns t !! c))) cs then
    Ret (mk_table (num_rows t) (foldr delete (columns t) cs))
  else Exc (mk_exn ValueError "Columns not in the dataset").

(** The external world: [load_glue], transformers, torch, shap, lime and
    the file system. *)
Record Env := mk_Env {
  (** the names in [load_glue.GLUE_CONFIGS] *)
  GLUE_CONFIGS : list string;
  (** [AutoModelForSequenceClassification.from_pretrained(name, num_labels=n)] *)
  from_pretrained : string -> nat -> res Model;
  (** [torch.load(path)] *)
  torch_load : string -> res StateDict;
  (** [model.load_state_dict(sd)]: the model afterwards and the exception
      raised, if any *)
  load_state_dict : Model -> StateDict -> Model * option exn;
  (** [AutoTokenizer.from_pretrained(name)] *)
  tokenizer_from_pretrained : string -> res Tokenizer;
  (** [train_and_eval_split(tokenizer, task)]: the tokenized and the raw
      validation split *)
  train_and_eval_split : Tokenizer -> string -> res (table * table);
  (** [F.softmax] *)
  softmax : list (list Score) -> list (list Score);
  (** [shap.Explainer(predict, tokenizer)(texts)] *)
  shap_Explainer :
    (list string -> res (list Score)) -> Tokenizer ->
    list (value Score) -> res Explanation;
  (** [LimeTextExplainer(class_names).explain_instance(text, predictor,
      num_features, num_samples).as_list()] *)
  lime_explain_instance :
    list Z -> value Score -> (list string -> res (list (list Score))) ->
    nat -> nat -> res (list (string * Score));
  (** [os.path.exists] *)
  path_exists : string -> bool
}.

End Libraries.

Arguments mk_tensor2 {Score} ncols trows.
Arguments ncols {Score} t.
Arguments trows {Score} t.
Arguments select_column_1 {Score} t.
Arguments mk_Model {Score} base_model_prefix num_labels forward.
Arguments base_model_prefix {Score} m.
Arguments num_labels {Score} m.
Arguments forward {Score} m inputs.
Arguments logits {Score} model inputs.
Arguments mk_Explanation {Score} data values base_values.
Arguments data {Score} e.
Arguments values {Score} e.
Arguments base_values {Score} e.
Arguments mk_table {Score} num_rows columns.
Arguments num_rows {Score} t.
Arguments columns {Score} t.
Arguments table_wf {Score} t.
Arguments HFDataset {Score} t.
Arguments ColumnDict {Score} d.
Arguments RowList {Score} rows.
Arguments Row {Score} r.
Arguments Key {Score} k.
Arguments column {Score} ds k.
Arguments row_at {Score} cols i.
Arguments rows_of {Score} t.
Arguments iterate {Score} ds.
Arguments item_get {Score} t k.
Arguments slice {A} l a b.
Arguments table_head {Score} t n.
Arguments set_format {Score} t cs.
Arguments remove_columns {Score} t cs.
Arguments mk_Env {Score StateDict}.
Arguments GLUE_CONFIGS {Score StateDict} e.
Arguments from_pretrained {Score StateDict} e name n.
Arguments torch_load {Score StateDict} e path.
Arguments load_state_dict {Score StateDict} e m sd.
Arguments tokenizer_from_pretrained {Score StateDict} e name.
Arguments train_and_eval_split {Score StateDict} e tok task_name.
Arguments softmax {Score StateDict} e l.
Arguments shap_Explainer {Score StateDict} e predict tok texts.
Arguments lime_explain_instance {Score StateDict} e class_names text predictor nf ns.
Arguments path_exists {Score StateDict} e p.

(** ** The script *)

Inductive ExpType := lime | shap | all.

#[global] Instance ExpType_eq_dec : EqDecision ExpType.
Proof. solve_decision. Defined.

(** The namespace returned by [parser.parse_args()].  [--model_path] has no
    default, so it may be [None]. *)
Record Args := mk_Args {
  model_path : option string;
  is_teacher : bool;
  task : string;
  exp_type : ExpType;
  debug : bool
}.

Definition set_task (a : Args) (t : string) : Args :=
  mk_Args (model_path a) (is_teacher a) t (exp_type a) (debug a).
Definition set_is_teacher (a : Args) (b : bool) : Args :=
  mk_Args (model_path a) b (task a) (exp_type a) (debug a).

Section Script.

Context {Score StateDict : Type}.
Variable lib : Env Score StateDict.

(** Lines 34-35: the encoding handed to the model. *)
Definition model_inputs (model : Model Score) (inputs : encoding) : res encoding :=
  if bool_decide (base_model_prefix model <> "bert")
  then pop inputs "token_type_ids" else Ret inputs.

(** *** predict_func (lines 25-41) *)
Definition predict_func (model : Model Score) (tokenizer : Tokenizer)
  : list string -> res (list Score) :=
  fun x =>
    let? inputs := tokenize tokenizer x in
    let? inputs := model_inputs model inputs in
    let? outputs := logits model inputs in
    select_column_1 outputs.

(** *** run_shap (lines 44-66) *)
Definition bsize : nat := 1.

(** The dict literal of lines 58-62, its items evaluated in order. *)
Definition shap_record (texts_ labels_ : list (value Score))
    (shap_results_i : Explanation Score) (j : nat) : res (record Score) :=
  let? sentence := getitem "list" texts_ j in
  let? tokens := getitem "tuple" (data shap_results_i) j in
  let? attributions := getitem "array" (values shap_results_i) j in
  let? label := getitem "list" labels_ j in
  let? base_value := getitem "array" (base_values shap_results_i) j in
  Ret ({[ "sentence" := sentence;
          "tokens" := VList (VStr <$> tokens);
          "attributions" := VList (VFloat <$> attributions);
          "label" := label;
          "base_value" := VFloat base_value ]} : record Score).

(** The [while] loop of lines 52-64. *)
Fixpoint shap_loop (explainer : list (value Score) -> res (Explanation Score))
    (texts labels : list (value Score)) (fuel cur_start : nat)
    (shap_results : results Score) : M Score (results Score) :=
  if decide (cur_start < length texts) then
    match fuel with
    | 0 => ([], Timeout)
    | S fuel' =>
        let texts_ := slice texts cur_start (cur_start + bsize) in
        let* _ := emit (Print (VList texts_)) in
        let labels_ := slice labels cur_start (cur_start + bsize) in
        let* shap_results_i := call (ShapExplain texts_) (explainer texts_) in
        let* shap_results :=
          for_each (seq 0 bsize)
            (fun j acc =>
               let* r := lift (shap_record texts_ labels_ shap_results_i j) in
               ret (<[cur_start + j := r]> acc))
            shap_results in
        shap_loop explainer texts labels fuel' (cur_start + bsize) shap_results
    end
  else ret shap_results.

Definition run_shap (model : Model Score) (tokenizer : Tokenizer)
    (dataset : dataset Score) (args : Args) : M Score (results Score) :=
  let predict_ := predict_func model tokenizer in
  let explainer := shap_Explainer lib predict_ tokenizer in
  let* texts := lift (column dataset "sentence") in
  let* labels := lift (column dataset "label") in
  shap_loop explainer texts labels (length texts) 0 ∅.

(** The explainer object built on line 47. *)
Definition shap_explainer_of (model : Model Score) (tokenizer : Tokenizer)
  : list (value Score) -> res (Explanation Score) :=
  shap_Explainer lib (predict_func model tokenizer) tokenizer.

(** *** run_lime (lines 69-90) *)
Definition predictor (model : Model Score) (tokenizer : Tokenizer) (args : Args)
  : list string -> res (list (list Score)) :=
  fun texts =>
    let? inputs := tokenize tokenizer texts in
    let? inputs :=
      (if negb (is_teacher args)
       then pop inputs "token_type_ids" else Ret inputs) in
    let? outputs := logits model inputs in
    Ret (softmax lib (trows outputs)).

(** The body of the [for] loop of lines 82-88. *)
Definition lime_step (model : Model Score) (tokenizer : Tokenizer) (args : Args)
    (it : nat * item Score) (lime_results : results Score)
  : M Score (results Score) :=
  let '(i, t) := it in
  let label_names := [0%Z; 1%Z] in
  let* str_to_predict := lift (item_get t "sentence") in
  let* exp_ :=
    call (LimeExplain str_to_predict 20 500)
      (lime_explain_instance lib label_names str_to_predict
         (predictor model tokenizer args) 20 500) in
  let* label := lift (item_get t "label") in
  ret (<[i := ({[ "sentence" := str_to_predict;
                  "tokens" := VList ((fun tp => VStr tp.1) <$> exp_);
                  "attributions" := VList ((fun tp => VFloat tp.2) <$> exp_);
                  "label" := label ]} : record Score)]> lime_results).

(** [explain_instance] as [run_lime] calls it. *)
Definition lime_explainer_of (model : Model Score) (tokenizer : Tokenizer)
    (args : Args) (text : value Score) : res (list (string * Score)) :=
  lime_explain_instance lib [0%Z; 1%Z] text (predictor model tokenizer args) 20 500.

(** One iteration of the loop of [run_lime], up to the record it stores
    under key [i]. *)
Definition lime_entry (model : Model Score) (tokenizer : Tokenizer) (args : Args)
    (it : nat * item Score) : M Score (record Score) :=
  let* str_to_predict := lift (item_get it.2 "sentence") in
  let* exp_ :=
    call (LimeExplain str_to_predict 20 500)
      (lime_explain_instance lib [0%Z; 1%Z] str_to_predict
         (predictor model tokenizer args) 20 500) in
  let* label := lift (item_get it.2 "label") in
  ret ({[ "sentence" := str_to_predict;
          "tokens" := VList ((fun tp => VStr tp.1) <$> exp_);
          "attributions" := VList ((fun tp => VFloat tp.2) <$> exp_);
          "label" := label ]} : record Score).

(** [enumerate(l)] *)
Definition enumerate {A} (l : list A) : list (nat * A) :=
  zip (seq 0 (length l)) l.

Definition run_lime (model : Model Score) (tokenizer : Tokenizer)
    (dataset : dataset Score) (args : Args) : M Score (results Score) :=
  for_each (enumerate (iterate dataset)) (lime_step model tokenizer args) ∅.

End Script.

(** *** main (lines 94-166) *)

(** [re.search(pat, s)] where [s] may be [None]. *)
Definition re_search_arg (pat : pattern) (s : option string) : res (option string) :=
  match s with
  | Some p => Ret (re_search pat p)
  | None => Exc (mk_exn TypeError "expected string or bytes-like object")
  end.

(** [m.group(1)] where [m] may be [None]. *)
Definition group1 (m : option string) : res string :=
  match m with
  | Some g => Ret g
  | None => Exc (mk_exn AttributeError "'NoneType' object has no attribute 'group'")
  end.

(** Reading a local variable that may not have been assigned. *)
Definition local {A} (name : string) (v : option A) : res A :=
  match v with
  | Some a => Ret a
  | None =>
      Exc (mk_exn UnboundLocalError
             ("local variable '" +:+ name +:+ "' referenced before assignment"))
  end.

(** Line 124. *)
Definition num_labels_for (task_name : string) : nat :=
  if startswith task_name "mnli" then 3
  else if bool_decide (task_name = "stsb") then 1 else 2.

Section Main.

Context {Score StateDict : Type}.
Variable lib : Env Score StateDict.

(** The variables of [main] that the model-loading block assigns. *)
Record frame := mk_frame {
  fr_args : Args;
  fr_model : option (Model Score);
  fr_model_type : option string
}.

(** Lines 103-107. *)
Definition resolve_task (args : Args) : M Score Args :=
  match re_search_arg task_pat (model_path args) with
  | Ret match_ =>
      ret (set_task args (match match_ with Some g => g | None => task args end))
  | Exc e =>
      if isinstance e TypeError then
        let* _ := emit (Print (VStr ("invalid model path: " +:+ exn_msg e))) in
        ret args
      else ([], Exc e)
  | Timeout => ([], Timeout)
  end.

(** One statement of a [try] body: on an exception the frame stays as the
    statements before it left it. *)
Definition and_then {A} (r : res A) (evs : list (event Score)) (fr : frame)
    (k : A -> list (event Score) * frame * res unit)
  : list (event Score) * frame * res unit :=
  match r with
  | Ret a => let '(evs', fr', r') := k a in (evs ++ evs', fr', r')
  | Exc e => (evs, fr, Exc e)
  | Timeout => (evs, fr, Timeout)
  end.

(** The [try] body of lines 116-127. *)
Definition load_model_try (fr0 : frame) : list (event Score) * frame * res unit :=
  let args := fr_args fr0 in
  and_then (re_search_arg teacher_pat (model_path args)) [] fr0 (fun match_teacher =>
  and_then (re_search_arg student_pat (model_path args)) [] fr0 (fun match_student =>
  and_then
    (match match_teacher with
     | Some g => Ret (g, true)
     | None => let? g := group1 match_student in Ret (g, false)
     end) [] fr0 (fun '(model_type, teacher) =>
  let fr1 := mk_frame (set_is_teacher args teacher) (fr_model fr0) (Some model_type) in
  let n := num_labels_for (task args) in
  and_then (from_pretrained lib model_type n) [FromPretrained model_type n] fr1 (fun model =>
  let fr2 := mk_frame (fr_args fr1) (Some model) (fr_model_type fr1) in
  let path := default "" (model_path args) in
  and_then (torch_load lib path) [TorchLoad path] fr2 (fun sd =>
  let '(model', r) := load_state_dict lib model sd in
  let fr3 := mk_frame (fr_args fr2) (Some model') (fr_model_type fr2) in
  match r with
  | Some e => ([LoadStateDict], fr3, Exc e)
  | None => ([LoadStateDict; Print (VStr "model loaded")], fr3, Ret tt)
  end))))).

(** Lines 115-133: the [try] body and its three handlers. *)
Definition load_model (fr0 : frame) : M Score frame :=
  let '(evs, fr, r) := load_model_try fr0 in
  match r with
  | Ret _ => (evs, Ret fr)
  | Exc e =>
      if isinstance e FileNotFoundError then
        (evs ++ [Print (VStr ("error: " +:+ exn_msg e))], Ret fr)
      else if isinstance e RuntimeError then
        (evs ++ [Print (VStr ("error: " +:+ exn_msg e))], Ret fr)
      else if isinstance e TypeError then
        (evs ++ [Print (VStr ("error: " +:+ exn_msg e))], Ret fr)
      else (evs, Exc e)
  | Timeout => (evs, Timeout)
  end.

(** Lines 110-133. *)
Definition obtain_model (args : Args) : M Score frame :=
  if debug args then
    let* model :=
      call (FromPretrained "distilbert-base-uncased" 2)
        (from_pretrained lib "distilbert-base-uncased" 2) in
    let* _ := emit (Print (VStr "model loaded - debug mode")) in
    ret (mk_frame args (Some model) (Some "distilbert_untrained"))
  else load_model (mk_frame args None None).

(** Line 163: a dict of columns turned into a list of row dicts. *)
Definition rows_of_columns (val_raw_dataset : dataset Score) : res (dataset Score) :=
  match val_raw_dataset with
  | ColumnDict d =>
      let? sentences := getkey d "sentence" in
      if bool_decide (map_Forall (fun _ (c : list (value Score)) =>
                                    length sentences <= length c) d)
      then Ret (RowList (row_at d <$> seq 0 (length sentences)))
      else Exc (mk_exn IndexError "list index out of range")
  | HFDataset t =>
      Exc (mk_exn AttributeError "'Dataset' object has no attribute 'items'")
  | RowList _ =>
      Exc (mk_exn AttributeError "'list' object has no attribute 'items'")
  end.

Definition results_path (model_type task_name technique : string) : string :=
  "explanation_results/" +:+ model_type +:+ "/" +:+ model_type +:+ "_"
    +:+ task_name +:+ "_" +:+ technique +:+ ".json".

(** Lines 157-160. *)
Definition shap_phase (model : Model Score) (tokenizer : Tokenizer)
    (model_type : option string) (args : Args) (val_raw_dataset : dataset Score)
  : M Score unit :=
  let* shap_results := run_shap lib model tokenizer val_raw_dataset args in
  let* mt := lift (local "model_type" model_type) in
  emit (JsonDump (results_path mt (task args) "shap") shap_results).

(** Lines 162-163: the dataset [run_lime] is called on. *)
Definition lime_input (args : Args) (val_raw_dataset : dataset Score)
  : res (dataset Score) :=
  if debug args then rows_of_columns val_raw_dataset else Ret val_raw_dataset.

(** Lines 162-166. *)
Definition lime_phase (model : Model Score) (tokenizer : Tokenizer)
    (model_type : option string) (args : Args) (val_raw_dataset : dataset Score)
  : M Score unit :=
  let* val_raw_dataset := lift (lime_input args val_raw_dataset) in
  let* lime_results := run_lime lib model tokenizer val_raw_dataset args in
  let* mt := lift (local "model_type" model_type) in
  emit (JsonDump (results_path mt (task args) "lime") lime_results).

(** Lines 157-166. *)
Definition explain_and_dump (model : Model Score) (tokenizer : Tokenizer)
    (model_type : option string) (args : Args) (val_raw_dataset : dataset Score)
  : M Score unit :=
  let* _ :=
    (if bool_decide (exp_type args = all) || bool_decide (exp_type args = shap)
     then shap_phase model tokenizer model_type args val_raw_dataset
     else ret tt) in
  if bool_decide (exp_type args = all) || bool_decide (exp_type args = lime)
  then lime_phase model tokenizer model_type args val_raw_dataset
  else ret tt.

(** Lines 135-166. *)
Definition main_from_model (fr : frame) : M Score unit :=
  let args := fr_args fr in
  let* model := lift (local "model" (fr_model fr)) in
  let* _ := emit ModelTo in
  let* _ := emit (Print (VStr "loading tokenizer...")) in
  let* tokenizer :=
    call (TokenizerFromPretrained "bert-base-uncased")
      (tokenizer_from_pretrained lib "bert-base-uncased") in
  let* _ := emit (Print (VStr ("loading validation data for task " +:+ task args))) in
  let* (val_dataset, val_raw) :=
    call (TrainAndEvalSplit (task args))
      (train_and_eval_split lib tokenizer (task args)) in
  let* val_dataset :=
    lift (set_format val_dataset
            ["input_ids"; "token_type_ids"; "attention_mask"; "labels"]) in
  let* val_dataset := lift (remove_columns val_dataset ["token_type_ids"]) in
  let val_len := if debug args then 4 else num_rows val_dataset in
  let val_raw_dataset :=
    if debug args then ColumnDict (table_head val_raw 4) else HFDataset val_raw in
  let* _ := emit (Print (VStr ("Validation Data Size: " +:+ pretty val_len))) in
  let* _ :=
    (if negb (path_exists lib "explanation_results")
     then emit (MakeDirs "explanation_results") else ret tt) in
  let* _ :=
    (let* mt := lift (local "model_type" (fr_model_type fr)) in
     if negb (path_exists lib ("explanation_results/" +:+ mt))
     then emit (MakeDirs ("explanation_results/" +:+ mt)) else ret tt) in
  explain_and_dump model tokenizer (fr_model_type fr) args val_raw_dataset.

Definition main (args0 : Args) : M Score unit :=
  let* args := resolve_task args0 in
  let* _ :=
    (if bool_decide (task args ∈ GLUE_CONFIGS lib) then ret tt
     else raise AssertionError "") in
  let* fr := obtain_model args in
  main_from_model fr.

End Main.

(** ** Reading a log and a result *)

Section Observations.

Context {Score : Type}.

(** The batches handed to the SHAP explainer, in call order. *)
Definition shap_calls (l : list (event Score)) : list (list (value Score)) :=
  omap (fun ev => match ev with ShapExplain t => Some t | _ => None end) l.

(** The texts handed to [explain_instance], in call order. *)
Definition lime_calls (l : list (event Score)) : list (value Score) :=
  omap (fun ev => match ev with LimeExplain t _ _ => Some t | _ => None end) l.

(** The files written, in order, with the object dumped to each. *)
Definition json_dumps (l : list (event Score)) : list (string * results Score) :=
  omap (fun ev => match ev with JsonDump p o => Some (p, o) | _ => None end) l.

(** The models requested from [from_pretrained], in order. *)
Definition model_loads (l : list (event Score)) : list (string * nat) :=
  omap (fun ev => match ev with FromPretrained n k => Some (n, k) | _ => None end) l.

(** The events [run_shap] can produce, and those [run_lime] can. *)
Definition shap_event (ev : event Score) : Prop :=
  match ev with
  | Print _ | ShapExplain _ => True
  | _ => False
  end.
Definition lime_event (ev : event Score) : Prop :=
  match ev with
  | LimeExplain _ _ _ => True
  | _ => False
  end.

(** No event of this kind is a call to [from_pretrained]. *)
Definition not_a_load (ev : event Score) : Prop :=
  match ev with
  | FromPretrained _ _ => False
  | _ => True
  end.

(** [len(rec["tokens"]) == len(rec["attributions"])], both being lists. *)
Definition aligned (rec : record Score) : Prop :=
  match rec !! "tokens", rec !! "attributions" with
  | Some (VList ts), Some (VList ws) => length ts = length ws
  | _, _ => False
  end.

(** One iteration of the [while] loop of [run_shap] at [cur_start = i],
    up to the record it stores under key [i]. *)
Definition shap_entry (explainer : list (value Score) -> res (Explanation Score))
    (texts labels : list (value Score)) (i : nat) : M Score (record Score) :=
  let texts_ := slice texts i (i + bsize) in
  let* _ := emit (Print (VList texts_)) in
  let* shap_results_i := call (ShapExplain texts_) (explainer texts_) in
  lift (shap_record texts_ (slice labels i (i + bsize)) shap_results_i 0).

(** A loop body that computes a record and stores it under a key. *)
Definition insert_step {A} (key : A -> nat) (entry : A -> M Score (record Score))
    (x : A) (acc : results Score) : M Score (results Score) :=
  let* r := entry x in ret (<[key x := r]> acc).

(** The five items of a SHAP record. *)
Definition shap_fields (sentence label : value Score) (tokens : list string)
    (attributions : list Score) (base_value : Score) : record Score :=
  {[ "sentence" := sentence;
     "tokens" := VList (VStr <$> tokens);
     "attributions" := VList (VFloat <$> attributions);
     "label" := label;
     "base_value" := VFloat base_value ]}.

(** The four items of a LIME record. *)
Definition lime_fields (sentence label : value Score) (exp_ : list (string * Score))
  : record Score :=
  {[ "sentence" := sentence;
     "tokens" := VList ((fun tp => VStr tp.1) <$> exp_);
     "attributions" := VList ((fun tp => VFloat tp.2) <$> exp_);
     "label" := label ]}.

(** SHAP returns, for each row of a batch, as many attribution values as
    tokens. *)
Definition shap_rows_aligned
    (explainer : list (value Score) -> res (Explanation Score)) : Prop :=
  forall texts e j toks vals,
    explainer texts = Ret e -> data e !! j = Some toks ->
    values e !! j = Some vals -> length toks = length vals.

(** The SHAP explainer returns on each one-sentence batch of [texts], with
    a row in each of its three arrays. *)
Definition shap_explains
    (explainer : list (value Score) -> res (Explanation Score))
    (texts : list (value Score)) : Prop :=
  forall (i : nat) (t : value Score), texts !! i = Some t ->
    exists e : Explanation Score,
      explainer [t] = Ret e /\ is_Some (data e !! 0) /\
      is_Some (values e !! 0) /\ is_Some (base_values e !! 0).

(** [explain_instance] returns on each sentence of [texts]. *)
Definition lime_explains
    (explain : value Score -> res (list (string * Score)))
    (texts : list (value Score)) : Prop :=
  forall (i : nat) (t : value Score),
    texts !! i = Some t -> exists exp_, explain t = Ret exp_.

End Observations.

(** ** What a match of [L1 (C+) L2] is

    These two definitions follow the regular-expression semantics, not the
    matcher: they are what [re_search] is compared with. *)

(** The pattern matches at the very start of [s] with group [g]. *)
Definition match_here (p : pattern) (s g : list ascii) : Prop :=
  exists post, s = lit1 p ++ g ++ lit2 p ++ post /\ g <> [] /\
    Forall (fun c => cls p c = true) g.

(** [g] is the group of the match as [re.search] defines it: the match
    starts at the leftmost position where one exists, and among the matches
    starting there the greedy group is the longest. *)
Definition leftmost_longest (p : pattern) (s g : list ascii) : Prop :=
  exists pre rest,
    s = pre ++ rest /\ match_here p rest g /\
    (forall g', match_here p rest g' -> length g' <= length g) /\
    (forall pre' rest' g', s = pre' ++ rest' -> length pre' < length pre ->
       ~ match_here p rest' g').

(** ** Landmarks of a run of [main] *)

Section Landmarks.

Context {Score StateDict : Type}.
Variable lib : Env Score StateDict.

(** The task after lines 103-107. *)
Definition resolved_task (args0 : Args) : string :=
  match model_path args0 with
  | Some p =>
      match re_search task_pat p with
      | Some g => g
      | None => task args0
      end
  | None => task args0
  end.

(** The namespace after lines 103-107. *)
Definition resolved (args0 : Args) : Args := set_task args0 (resolved_task args0).

(** What lines 103-107 print. *)
Definition resolve_log (args0 : Args) : list (event Score) :=
  match model_path args0 with
  | Some _ => []
  | None =>
      [Print (VStr "invalid model path: expected string or bytes-like object")]
  end.

(** What lines 135-154 log when nothing raises: [n] is the size printed on
    line 148 and [mt] the model type. *)
Definition setup_log (args : Args) (mt : string) (n : nat) : list (event Score) :=
  [ModelTo;
   Print (VStr "loading tokenizer...");
   TokenizerFromPretrained "bert-base-uncased";
   Print (VStr ("loading validation data for task " +:+ task args));
   TrainAndEvalSplit (task args);
   Print (VStr ("Validation Data Size: " +:+ pretty n))]
  ++ (if negb (path_exists lib "explanation_results")
      then [MakeDirs "explanation_results"] else [])
  ++ (if negb (path_exists lib ("explanation_results/" +:+ mt))
      then [MakeDirs ("explanation_results/" +:+ mt)] else []).

(** Lines 137-143 go through: the tokenizer loads, the validation split
    loads, and the tokenized split has the four columns of line 142. *)
Definition setup_ok (args : Args) (tokenizer : Tokenizer)
    (val_dataset val_raw : table Score) : Prop :=
  tokenizer_from_pretrained lib "bert-base-uncased" = Ret tokenizer /\
  train_and_eval_split lib tokenizer (task args) = Ret (val_dataset, val_raw) /\
  forallb (fun c => bool_decide (is_Some (columns val_dataset !! c)))
    ["input_ids"; "token_type_ids"; "attention_mask"; "labels"] = true.

(** The raw validation data handed to lines 157-166. *)
Definition explained_dataset (args : Args) (val_raw : table Score) : dataset Score :=
  if debug args then ColumnDict (table_head val_raw 4) else HFDataset val_raw.

End Landmarks.

(** ** A small concrete world

    Scores are integers, the models return constant logits, and the two
    explainers split a sentence at white space, so that the script can be
    run on concrete inputs. *)

Module Demo.

Definition demo_model (prefix : string) (n : nat) : Model Z :=
  mk_Model prefix n
    (fun inputs =>
       Ret ((fun _ => replicate n 7%Z) <$> default [] (inputs !! "input_ids"))).

Definition demo_tokenizer : Tokenizer :=
  mk_Tokenizer
    (fun texts =>
       let ids := (fun s : string => [Z.of_nat (String.length s)]) <$> texts in
       Ret ({[ "input_ids" := ids;
               "token_type_ids" := (fun _ => [0%Z]) <$> texts;
               "attention_mask" := (fun _ => [1%Z]) <$> texts ]} : encoding)).

Definition as_str (v : value Z) : res string :=
  match v with
  | VStr s => Ret s
  | _ => Exc (mk_exn TypeError "expected str")
  end.

Fixpoint as_strs (vs : list (value Z)) : res (list string) :=
  match vs with
  | [] => Ret []
  | v :: vs' => let? s := as_str v in let? ss := as_strs vs' in Ret (s :: ss)
  end.

Definition word_scores (s : string) : list Z :=
  (fun w : string => Z.of_nat (String.length w)) <$> String.words s.

(** A SHAP stand-in: one row per text, tokens are the words, the base value
    is what the prediction function returns for the text. *)
Definition demo_shap (predict : list string -> res (list Z)) (tok : Tokenizer)
    (texts : list (value Z)) : res (Explanation Z) :=
  let? strs := as_strs texts in
  let? base := predict strs in
  Ret (mk_Explanation (String.words <$> strs) (word_scores <$> strs) base).

(** A LIME stand-in: the words of the text and their lengths. *)
Definition demo_lime (class_names : list Z) (text : value Z)
    (predictor : list string -> res (list (list Z))) (num_features num_samples : nat)
  : res (list (string * Z)) :=
  let? s := as_str text in
  let? _ := predictor [s] in
  Ret (take num_features (zip (String.words s) (word_scores s))).

Definition demo_sentences : list string :=
  ["a charming film"; "dull"; "not bad at all"; "great"; "a mess"].
Definition demo_labels : list Z := [1; 0; 1; 1; 0]%Z.

Definition demo_raw (n : nat) : table Z :=
  mk_table n
    {[ "sentence" := take n (VStr <$> demo_sentences);
       "label" := take n (VInt <$> demo_labels);
       "idx" := (fun i => VInt (Z.of_nat i)) <$> seq 0 n ]}.

Definition demo_tokenized (n : nat) : table Z :=
  mk_table n
    {[ "input_ids" := replicate n (VList [VInt 101; VInt 102]);
       "token_type_ids" := replicate n (VList [VInt 0; VInt 0]);
       "attention_mask" := replicate n (VList [VInt 1; VInt 1]);
       "labels" := take n (VInt <$> demo_labels) ]}.

(** A world with [n] validation examples ([n <= 5]) in which only the
    checkpoint [good] can be read. *)
Definition demo_env (n : nat) (good : string) : Env Z unit :=
  mk_Env
    ["cola"; "sst2"; "mrpc"; "qqp"; "stsb"; "mnli"; "qnli"; "rte"; "wnli"]
    (fun name k =>
       if startswith name "distilbert" then Ret (demo_model "distilbert" k)
       else if startswith name "bert" then Ret (demo_model "bert" k)
       else Exc (mk_exn OSError (name +:+ " is not a model identifier")))
    (fun path =>
       if bool_decide (path = good) then Ret tt
       else Exc (mk_exn FileNotFoundError ("No such file or directory: " +:+ path)))
    (fun m _ => (m, None))
    (fun _ => Ret demo_tokenizer)
    (fun _ _ => Ret (demo_tokenized n, demo_raw n))
    (fun rows => rows)
    demo_shap
    demo_lime
    (fun _ => false).

Definition demo_args (path : option string) (e : ExpType) (dbg : bool) : Args :=
  mk_Args path false "sst2" e dbg.

Definition demo_ckpt : string := "ckpt/student_distilbert-base-uncased_sst2.pt".
Definition demo_lib : Env Z unit := demo_env 5 demo_ckpt.
Definition demo_distil : Model Z := demo_model "distilbert" 2.
Definition demo_run_args : Args := demo_args (Some demo_ckpt) all false.
Definition demo_ds : dataset Z := HFDataset (demo_raw 5).

Definition result_of (m : M Z (results Z)) : results Z :=
  match outcome m with
  | Ret r => r
  | _ => ∅
  end.

Definition demo_shap_results : results Z :=
  result_of (run_shap demo_lib demo_distil demo_tokenizer demo_ds demo_run_args).
Definition demo_lime_results : results Z :=
  result_of (run_lime demo_lib demo_distil demo_tokenizer demo_ds demo_run_args).

End Demo.

Example re_task_1 :
re_search task_pat "ckpt/teacher_bert-base-uncased_sst2.pt" = Some "sst2".
Proof. reflexivity. Qed.
Example re_teacher_1 :
re_search teacher_pat "ckpt/teacher_bert-base-uncased_sst2.pt" = Some "bert-base-uncased".
Proof. reflexivity. Qed.
Example re_teacher_greedy :
re_search teacher_pat "teacher_a_b_c.pt" = Some "a_b".
Proof. reflexivity. Qed.
Example re_student_none :
re_search student_pat "ckpt/teacher_bert-base-uncased_sst2.pt" = None.
Proof. reflexivity. Qed.

(** * Properties *)

(** ** The monad *)

Section MonadLaws.

Context {Score : Type}.
Implicit Types (A B C : Type).

Lemma bind_ret_l {A B} (a : A) (k : A -> M Score B) : bind (ret a) k = k a.
Proof. unfold bind, ret. by destruct (k a). Qed.

Lemma bind_ret_r {A} (m : M Score A) : bind m ret = m.
Proof. destruct m as [l [a | e |]]; simpl; by rewrite ?app_nil_r. Qed.

Lemma bind_assoc {A B C} (m : M Score A) (f : A -> M Score B) (g : B -> M Score C) :
  bind (bind m f) g = bind m (fun a => bind (f a) g).
Proof.
  destruct m as [l [a | e |]]; simpl; try done.
  destruct (f a) as [l2 [b | e |]]; simpl; try done.
  destruct (g b) as [l3 r]. by rewrite app_assoc.
Qed.

Lemma bind_lift_ret {A B} (a : A) (k : A -> M Score B) : bind (lift (Ret a)) k = k a.
Proof. apply bind_ret_l. Qed.

Lemma bind_emit {B} (ev : event Score) (k : unit -> M Score B) :
  bind (emit ev) k = (ev :: log (k tt), outcome (k tt)).
Proof. unfold bind, emit, log, outcome. by destruct (k tt). Qed.

Lemma bind_call_ret {A B} (ev : event Score) (a : A) (k : A -> M Score B) :
  bind (call ev (Ret a)) k = (ev :: log (k a), outcome (k a)).
Proof. unfold bind, call, log, outcome. by destruct (k a). Qed.

Lemma bind_pair_ret {A B} (l : list (event Score)) (a : A) (k : A -> M Score B) :
  bind (l, Ret a) k = (l ++ log (k a), outcome (k a)).
Proof. unfold bind, log, outcome. by destruct (k a). Qed.

(** Running a computation one statement at a time. *)
Lemma step_emit {B} (ev : event Score) (k : unit -> M Score B)
    (l : list (event Score)) (o : res B) :
  k tt = (l, o) -> bind (emit ev) k = (ev :: l, o).
Proof. intros H. by rewrite bind_emit, H. Qed.

Lemma step_call {A B} (ev : event Score) (r : res A) (a : A) (k : A -> M Score B)
    (l : list (event Score)) (o : res B) :
  r = Ret a -> k a = (l, o) -> bind (call ev r) k = (ev :: l, o).
Proof. intros -> H. by rewrite bind_call_ret, H. Qed.

Lemma step_lift {A B} (r : res A) (a : A) (k : A -> M Score B) (m : M Score B) :
  r = Ret a -> k a = m -> bind (lift r) k = m.
Proof. intros -> H. by rewrite bind_lift_ret. Qed.

Lemma step_ret {A B} (a : A) (k : A -> M Score B) (m : M Score B) :
  k a = m -> bind (ret a) k = m.
Proof. intros H. by rewrite bind_ret_l. Qed.

Lemma bind_ext {A B} (m : M Score A) (k1 k2 : A -> M Score B) :
  (forall a, k1 a = k2 a) -> bind m k1 = bind m k2.
Proof. intros H. destruct m as [l [a | e |]]; simpl; [by rewrite H | done ..]. Qed.

Lemma for_each_ext {A S} (l : list A) (f g : A -> S -> M Score S) (s : S) :
  (forall x s', f x s' = g x s') -> for_each l f s = for_each l g s.
Proof.
  intros H. revert s. induction l as [| x l IH]; intros s; [done |].
  simpl. rewrite H. by apply bind_ext.
Qed.

Lemma log_bind {A B} (m : M Score A) (k : A -> M Score B) :
  log (bind m k) =
  log m ++ match outcome m with Ret a => log (k a) | _ => [] end.
Proof.
  destruct m as [l [a | e |]]; simpl; rewrite ?app_nil_r; try done.
  by destruct (k a).
Qed.

Lemma outcome_bind {A B} (m : M Score A) (k : A -> M Score B) :
  outcome (bind m k) =
  match outcome m with Ret a => outcome (k a) | Exc e => Exc e | Timeout => Timeout end.
Proof.
  destruct m as [l [a | e |]]; simpl; try done. by destruct (k a).
Qed.

Lemma outcome_bind_Ret {A B} (m : M Score A) (k : A -> M Score B) (b : B) :
  outcome (bind m k) = Ret b ->
  exists a, outcome m = Ret a /\ outcome (k a) = Ret b.
Proof.
  rewrite outcome_bind. destruct (outcome m) as [a | e |]; try done. eauto.
Qed.

End MonadLaws.

(** ** Loops that fill a dict *)

Section InsertLoops.

Context {Score A : Type}.
Variable key : A -> nat.
Variable entry : A -> M Score (record Score).

Lemma for_each_cons {S} (x : A) (l : list A) (body : A -> S -> M Score S) (s : S) :
  for_each (x :: l) body s = bind (body x s) (for_each l body).
Proof. done. Qed.

(** A loop that returns has run every iteration to its end. *)
Lemma insert_loop_entries (l : list A) (acc r : results Score) :
  outcome (for_each l (insert_step key entry) acc) = Ret r ->
  Forall (fun x => exists rec, outcome (entry x) = Ret rec) l.
Proof.
  revert acc. induction l as [| x l IH]; intros acc H; [constructor |].
  rewrite for_each_cons in H. apply outcome_bind_Ret in H as (acc' & H1 & H2).
  unfold insert_step in H1. apply outcome_bind_Ret in H1 as (rec & H1 & _).
  constructor; eauto.
Qed.

(** A loop whose iterations all return does return. *)
Lemma insert_loop_total (l : list A) (acc : results Score) :
  Forall (fun x => exists rec, outcome (entry x) = Ret rec) l ->
  exists r, outcome (for_each l (insert_step key entry) acc) = Ret r.
Proof.
  revert acc. induction l as [| x l IH]; intros acc H.
  - by exists acc.
  - inversion H as [| ? ? [rec Hx] Hl]; subst.
    rewrite for_each_cons, outcome_bind. unfold insert_step at 1.
    rewrite outcome_bind, Hx. simpl. apply IH, Hl.
Qed.

(** What is stored under a key comes from an iteration with that key, or
    was there before the loop. *)
Lemma insert_loop_lookup (l : list A) (acc r : results Score) (k : nat) :
  outcome (for_each l (insert_step key entry) acc) = Ret r ->
  (exists x rec, x ∈ l /\ key x = k /\ outcome (entry x) = Ret rec /\ r !! k = Some rec)
  \/ ((k ∉ key <$> l) /\ r !! k = acc !! k).
Proof.
  revert acc. induction l as [| x l IH]; intros acc H.
  - right. simpl in H. inversion H; subst. split; [apply not_elem_of_nil | done].
  - rewrite for_each_cons in H. apply outcome_bind_Ret in H as (acc' & H1 & H2).
    unfold insert_step in H1. apply outcome_bind_Ret in H1 as (rec & H1 & H3).
    simpl in H3. inversion H3; subst acc'. clear H3.
    destruct (IH _ H2) as [(y & rec' & Hy & Hk & He & Hr) | [Hnot Hr]].
    + left. exists y, rec'. split_and!; try done. by apply elem_of_cons; right.
    + destruct (decide (key x = k)) as [Heq | Hne].
      * left. exists x, rec. split_and!; try done; [by apply elem_of_cons; left |].
        rewrite Hr, Heq. apply lookup_insert_eq.
      * right. split.
        -- rewrite fmap_cons. intros [? | ?]%elem_of_cons; [congruence | done].
        -- rewrite Hr. by apply lookup_insert_ne.
Qed.

Lemma insert_loop_dom (l : list A) (acc r : results Score) :
  outcome (for_each l (insert_step key entry) acc) = Ret r ->
  dom r = list_to_set (key <$> l) ∪ dom acc.
Proof.
  revert acc. induction l as [| x l IH]; intros acc H.
  - simpl in H. inversion H; subst. set_solver.
  - rewrite for_each_cons in H. apply outcome_bind_Ret in H as (acc' & H1 & H2).
    unfold insert_step in H1. apply outcome_bind_Ret in H1 as (rec & H1 & H3).
    simpl in H3. inversion H3; subst acc'. clear H3.
    rewrite (IH _ H2), dom_insert_L, fmap_cons. set_solver.
Qed.

(** The log of a loop that returns is the logs of its iterations, in
    order. *)
Lemma insert_loop_log (l : list A) (acc r : results Score) :
  outcome (for_each l (insert_step key entry) acc) = Ret r ->
  log (for_each l (insert_step key entry) acc) = concat ((fun x => log (entry x)) <$> l).
Proof.
  revert acc. induction l as [| x l IH]; intros acc H; [done |].
  rewrite for_each_cons in H |- *.
  pose proof H as H'. apply outcome_bind_Ret in H' as (acc' & H1 & H2).
  rewrite log_bind, H1, (IH _ H2). simpl. f_equal.
  unfold insert_step in H1 |- *. rewrite log_bind.
  apply outcome_bind_Ret in H1 as (rec & H1 & _). rewrite H1. simpl.
  by rewrite app_nil_r.
Qed.

(** Whatever its outcome, a loop has logged the iterations of a prefix of
    its list. *)
Lemma insert_loop_log_prefix (l : list A) (acc : results Score) :
  log (for_each l (insert_step key entry) acc)
    `prefix_of` concat ((fun x => log (entry x)) <$> l).
Proof.
  revert acc. induction l as [| x l IH]; intros acc; [done |].
  rewrite for_each_cons, log_bind. simpl.
  assert (Hl : log (insert_step key entry x acc) = log (entry x)).
  { unfold insert_step. rewrite log_bind.
    destruct (outcome (entry x)); simpl; by rewrite app_nil_r. }
  rewrite Hl. apply prefix_app.
  destruct (outcome (insert_step key entry x acc)); [apply IH | apply prefix_nil ..].
Qed.

End InsertLoops.

(** ** run_shap *)

Section ShapLoop.

Context {Score : Type}.
Variable explainer : list (value Score) -> res (Explanation Score).
Variables texts labels : list (value Score).

Lemma M_eq {A} (m1 m2 : M Score A) :
  log m1 = log m2 -> outcome m1 = outcome m2 -> m1 = m2.
Proof. destruct m1, m2; simpl; congruence. Qed.

(** With [bsize = 1] the inner [for] loop runs its body once, at [j = 0]. *)
Lemma for_each_bsize {S} (body : nat -> S -> M Score S) (s : S) :
  for_each (seq 0 bsize) body s = body 0 s.
Proof. unfold bsize. simpl. apply bind_ret_r. Qed.

Lemma shap_loop_0 (cur : nat) (acc : results Score) :
  shap_loop explainer texts labels 0 cur acc =
  if decide (cur < length texts) then ([], Timeout) else ret acc.
Proof. done. Qed.

Lemma shap_loop_S (fuel cur : nat) (acc : results Score) :
  shap_loop explainer texts labels (S fuel) cur acc =
  if decide (cur < length texts) then
    let texts_ := slice texts cur (cur + bsize) in
    let* _ := emit (Print (VList texts_)) in
    let labels_ := slice labels cur (cur + bsize) in
    let* shap_results_i := call (ShapExplain texts_) (explainer texts_) in
    let* shap_results :=
      for_each (seq 0 bsize)
        (fun j acc =>
           let* r := lift (shap_record texts_ labels_ shap_results_i j) in
           ret (<[cur + j := r]> acc))
        acc in
    shap_loop explainer texts labels fuel (cur + bsize) shap_results
  else ret acc.
Proof. done. Qed.

(** With enough fuel the [while] loop is a [for] loop over the remaining
    indices. *)
Lemma shap_loop_for_each (fuel cur : nat) (acc : results Score) :
  length texts <= cur + fuel ->
  shap_loop explainer texts labels fuel cur acc =
  for_each (seq cur (length texts - cur))
    (insert_step id (shap_entry explainer texts labels)) acc.
Proof.
  revert cur acc. induction fuel as [| fuel IH]; intros cur acc Hfuel.
  - rewrite shap_loop_0. destruct (decide (cur < length texts)) as [Hlt | Hge]; [lia |].
    by replace (length texts - cur) with 0 by lia.
  - rewrite shap_loop_S. destruct (decide (cur < length texts)) as [Hlt | Hge].
    + replace (length texts - cur) with (S (length texts - S cur)) by lia.
      simpl seq. rewrite for_each_cons.
      unfold insert_step at 1. unfold shap_entry. cbv zeta.
      rewrite !bind_assoc, !bind_emit.
      assert (Hnext : forall rec,
        shap_loop explainer texts labels fuel (cur + bsize) (<[cur + 0 := rec]> acc) =
        for_each (seq (S cur) (length texts - S cur))
          (insert_step id (shap_entry explainer texts labels)) (<[id cur := rec]> acc)).
      { intros rec. rewrite IH by (unfold bsize; lia).
        unfold bsize, id. by rewrite Nat.add_0_r, Nat.add_1_r. }
      destruct (explainer (slice texts cur (cur + bsize))) as [e | e |]; [| done ..].
      rewrite !bind_call_ret, for_each_bsize.
      destruct (shap_record (slice texts cur (cur + bsize))
                  (slice labels cur (cur + bsize)) e 0) as [rec | e' |]; [| done ..].
      rewrite !bind_lift_ret, !bind_ret_l. by rewrite Hnext.
    + by replace (length texts - cur) with 0 by lia.
Qed.

End ShapLoop.

Section ShapRecords.

Context {Score : Type}.
Implicit Types (texts labels : list (value Score)) (rec : record Score).

Lemma getitem_Ret {A} (name : string) (l : list A) (i : nat) (a : A) :
  getitem name l i = Ret a <-> l !! i = Some a.
Proof. unfold getitem. destruct (l !! i); split; congruence. Qed.

Lemma getkey_Ret {A} (d : gmap string A) (k : string) (a : A) :
  getkey d k = Ret a <-> d !! k = Some a.
Proof. unfold getkey. destruct (d !! k); split; congruence. Qed.

Lemma slice_lookup_0 {A} (l : list A) (i : nat) :
  slice l i (i + bsize) !! 0 = l !! i.
Proof.
  unfold slice, bsize. replace (i + 1 - i) with 1 by lia.
  rewrite lookup_take_lt by lia. rewrite lookup_drop. by rewrite Nat.add_0_r.
Qed.

Lemma slice_singleton {A} (l : list A) (i : nat) (a : A) :
  l !! i = Some a -> slice l i (i + bsize) = [a].
Proof.
  intros H. unfold slice, bsize. replace (i + 1 - i) with 1 by lia.
  rewrite (drop_S _ _ _ H). done.
Qed.

Lemma shap_record_Ret texts_ labels_ (e : Explanation Score) (j : nat) rec :
  shap_record texts_ labels_ e j = Ret rec <->
  exists sentence tokens attributions label base_value,
    texts_ !! j = Some sentence /\ data e !! j = Some tokens /\
    values e !! j = Some attributions /\ labels_ !! j = Some label /\
    base_values e !! j = Some base_value /\
    rec = shap_fields sentence label tokens attributions base_value.
Proof.
  unfold shap_record, getitem, rbind, shap_fields. split.
  - destruct (texts_ !! j) as [s |]; [| done].
    destruct (data e !! j) as [t |]; [| done].
    destruct (values e !! j) as [v |]; [| done].
    destruct (labels_ !! j) as [l |]; [| done].
    destruct (base_values e !! j) as [b |]; [| done].
    intros [= <-]. by exists s, t, v, l, b.
  - intros (s & t & v & l & b & -> & -> & -> & -> & -> & ->). done.
Qed.

(** What one iteration of the SHAP loop stores, when it returns. *)
Lemma shap_entry_Ret (explainer : list (value Score) -> res (Explanation Score))
    texts labels (i : nat) rec :
  outcome (shap_entry explainer texts labels i) = Ret rec <->
  exists e sentence tokens attributions label base_value,
    explainer (slice texts i (i + bsize)) = Ret e /\
    texts !! i = Some sentence /\ data e !! 0 = Some tokens /\
    values e !! 0 = Some attributions /\ labels !! i = Some label /\
    base_values e !! 0 = Some base_value /\
    rec = shap_fields sentence label tokens attributions base_value.
Proof.
  unfold shap_entry. cbv zeta.
  rewrite outcome_bind. cbn [emit outcome snd].
  rewrite outcome_bind. cbn [call lift outcome snd].
  destruct (explainer (slice texts i (i + bsize))) as [e | e |].
  - rewrite shap_record_Ret, !slice_lookup_0. split.
    + intros (s & t & v & l & b & ?). by exists e, s, t, v, l, b.
    + intros (e' & s & t & v & l & b & [= <-] & ?). by exists s, t, v, l, b.
  - split; [done | by intros (? & ? & ? & ? & ? & ? & ? & _)].
  - split; [done | by intros (? & ? & ? & ? & ? & ? & ? & _)].
Qed.

Lemma shap_entry_log (explainer : list (value Score) -> res (Explanation Score))
    texts labels (i : nat) :
  log (shap_entry explainer texts labels i) =
  [Print (VList (slice texts i (i + bsize))); ShapExplain (slice texts i (i + bsize))].
Proof.
  unfold shap_entry. cbv zeta. rewrite bind_emit. cbn [log fst]. f_equal.
  rewrite log_bind. cbn [call lift log outcome fst snd].
  by destruct (explainer _).
Qed.

Lemma shap_fields_lookup (sentence label : value Score) (tokens : list string)
    (attributions : list Score) (base_value : Score) :
  let rec := shap_fields sentence label tokens attributions base_value in
  rec !! "sentence" = Some sentence /\
  rec !! "tokens" = Some (VList (VStr <$> tokens)) /\
  rec !! "attributions" = Some (VList (VFloat <$> attributions)) /\
  rec !! "label" = Some label /\
  rec !! "base_value" = Some (VFloat base_value) /\
  dom rec = {[ "sentence"; "tokens"; "attributions"; "label"; "base_value" ]}.
Proof.
  unfold shap_fields. split_and!; by simplify_map_eq.
Qed.

End ShapRecords.

Section RunShap.

Context {Score StateDict : Type}.
Variable lib : Env Score StateDict.
Variable model : Model Score.
Variable tokenizer : Tokenizer.
Variable args : Args.

Lemma run_shap_for_each (ds : dataset Score) (texts labels : list (value Score)) :
  column ds "sentence" = Ret texts ->
  column ds "label" = Ret labels ->
  run_shap lib model tokenizer ds args =
  for_each (seq 0 (length texts))
    (insert_step id (shap_entry (shap_explainer_of lib model tokenizer) texts labels)) ∅.
Proof.
  intros Ht Hl. unfold run_shap. cbv zeta. rewrite Ht, bind_lift_ret, Hl, bind_lift_ret.
  rewrite shap_loop_for_each by lia. by rewrite Nat.sub_0_r.
Qed.

Lemma run_shap_columns (ds : dataset Score) (r : results Score) :
  outcome (run_shap lib model tokenizer ds args) = Ret r ->
  exists texts labels,
    column ds "sentence" = Ret texts /\ column ds "label" = Ret labels.
Proof.
  unfold run_shap. cbv zeta. intros H.
  apply outcome_bind_Ret in H as (texts & Ht & H).
  apply outcome_bind_Ret in H as (labels & Hl & H).
  simpl in Ht, Hl. eauto.
Qed.

Lemma set_seq_of_seq (n : nat) :
  list_to_set (id <$> seq 0 n) ∪ dom (∅ : results Score) = (set_seq 0 n : gset nat).
Proof.
  rewrite list_fmap_id, dom_empty_L.
  apply set_eq. intros x.
  rewrite elem_of_union, elem_of_list_to_set, elem_of_seq, elem_of_set_seq.
  set_solver by lia.
Qed.

(** A run of [run_shap] that returns: the columns it read, the keys of its
    result, where each record comes from, and what it logged. *)
Lemma run_shap_Ret (ds : dataset Score) (r : results Score) :
  outcome (run_shap lib model tokenizer ds args) = Ret r ->
  exists texts labels,
    column ds "sentence" = Ret texts /\ column ds "label" = Ret labels /\
    dom r = set_seq 0 (length texts) /\
    (forall i rec, r !! i = Some rec ->
       i < length texts /\
       outcome (shap_entry (shap_explainer_of lib model tokenizer) texts labels i) = Ret rec) /\
    log (run_shap lib model tokenizer ds args) =
    concat ((fun i => log (shap_entry (shap_explainer_of lib model tokenizer) texts labels i))
              <$> seq 0 (length texts)).
Proof.
  intros H. destruct (run_shap_columns _ _ H) as (texts & labels & Ht & Hl).
  exists texts, labels. rewrite (run_shap_for_each _ _ _ Ht Hl) in H |- *.
  split_and!; try done.
  - rewrite (insert_loop_dom _ _ _ _ _ H). apply set_seq_of_seq.
  - intros i rec Hi.
    destruct (insert_loop_lookup id _ _ _ _ i H)
      as [(x & rec' & Hx & Hk & He & Hr) | [_ Hr]].
    + unfold id in Hk. subst x. apply elem_of_seq in Hx.
      rewrite Hi in Hr. inversion Hr; subst. split; [lia | done].
    + rewrite Hi, lookup_empty in Hr. done.
  - by apply insert_loop_log with (r := r).
Qed.

(** [run_shap] returns as soon as the columns are there and every
    iteration returns; in particular it never runs out of fuel. *)
Lemma run_shap_total (ds : dataset Score) (texts labels : list (value Score)) :
  column ds "sentence" = Ret texts ->
  column ds "label" = Ret labels ->
  (forall i, i < length texts ->
     exists rec, outcome (shap_entry (shap_explainer_of lib model tokenizer) texts labels i) = Ret rec) ->
  exists r, outcome (run_shap lib model tokenizer ds args) = Ret r.
Proof.
  intros Ht Hl Hall. rewrite (run_shap_for_each _ _ _ Ht Hl).
  apply insert_loop_total. apply Forall_forall. intros i Hi.
  apply elem_of_seq in Hi. apply Hall. lia.
Qed.

End RunShap.

(** ** run_lime *)

Section RunLime.

Context {Score StateDict : Type}.
Variable lib : Env Score StateDict.
Variable model : Model Score.
Variable tokenizer : Tokenizer.
Variable args : Args.

Lemma lime_step_insert (it : nat * item Score) (acc : results Score) :
  lime_step lib model tokenizer args it acc =
  insert_step fst (lime_entry lib model tokenizer args) it acc.
Proof.
  destruct it as [i t]. unfold lime_step, insert_step, lime_entry. cbv zeta.
  cbn [fst snd].
  destruct (item_get t "sentence") as [s | e |]; [| done ..].
  rewrite !bind_lift_ret.
  destruct (lime_explain_instance lib [0%Z; 1%Z] s
              (predictor lib model tokenizer args) 20 500) as [exp_ | e |]; [| done ..].
  rewrite !bind_call_ret.
  destruct (item_get t "label") as [l | e |]; [| done ..].
  rewrite !bind_lift_ret, ?bind_ret_l. done.
Qed.

Lemma run_lime_for_each (ds : dataset Score) :
  run_lime lib model tokenizer ds args =
  for_each (enumerate (iterate ds))
    (insert_step fst (lime_entry lib model tokenizer args)) ∅.
Proof.
  unfold run_lime. apply for_each_ext, lime_step_insert.
Qed.

(** What one iteration of the LIME loop stores, when it returns. *)
Lemma lime_entry_Ret (it : nat * item Score) (rec : record Score) :
  outcome (lime_entry lib model tokenizer args it) = Ret rec <->
  exists sentence exp_ label,
    item_get it.2 "sentence" = Ret sentence /\
    lime_explain_instance lib [0%Z; 1%Z] sentence
      (predictor lib model tokenizer args) 20 500 = Ret exp_ /\
    item_get it.2 "label" = Ret label /\
    rec = lime_fields sentence label exp_.
Proof.
  unfold lime_entry, lime_fields. split.
  - intros H.
    apply outcome_bind_Ret in H as (s & Hs & H).
    apply outcome_bind_Ret in H as (exp_ & He & H).
    apply outcome_bind_Ret in H as (l & Hl & H).
    cbn [lift call ret outcome snd] in *. inversion H; subst.
    by exists s, exp_, l.
  - intros (s & exp_ & l & Hs & He & Hl & ->).
    rewrite Hs, bind_lift_ret, He, bind_call_ret, Hl, bind_lift_ret. done.
Qed.

Lemma lime_fields_lookup (sentence label : value Score) (exp_ : list (string * Score)) :
  let rec := lime_fields sentence label exp_ in
  rec !! "sentence" = Some sentence /\
  rec !! "tokens" = Some (VList ((fun tp => VStr tp.1) <$> exp_)) /\
  rec !! "attributions" = Some (VList ((fun tp => VFloat tp.2) <$> exp_)) /\
  rec !! "label" = Some label /\
  rec !! "base_value" = None /\
  dom rec = {[ "sentence"; "tokens"; "attributions"; "label" ]}.
Proof.
  unfold lime_fields. split_and!; by simplify_map_eq.
Qed.

End RunLime.

Section RunLimeSpec.

Context {Score StateDict : Type}.
Variable lib : Env Score StateDict.
Variable model : Model Score.
Variable tokenizer : Tokenizer.
Variable args : Args.

Lemma elem_of_enumerate {A} (l : list A) (i : nat) (a : A) :
  (i, a) ∈ enumerate l <-> l !! i = Some a.
Proof.
  unfold enumerate. rewrite list_elem_of_lookup. split.
  - intros (j & Hj). apply lookup_zip_Some in Hj as [Hs Hl].
    apply lookup_seq in Hs as [-> _]. done.
  - intros H. exists i. apply lookup_zip_Some. split; [| done].
    apply lookup_seq. split; [done |]. by apply lookup_lt_Some in H.
Qed.

Lemma fst_enumerate {A} (l : list A) : (enumerate l).*1 = seq 0 (length l).
Proof. unfold enumerate. apply fst_zip. by rewrite length_seq. Qed.

(** A run of [run_lime] that returns: the keys of its result, where each
    record comes from, and what it logged. *)
Lemma run_lime_Ret (ds : dataset Score) (r : results Score) :
  outcome (run_lime lib model tokenizer ds args) = Ret r ->
  dom r = set_seq 0 (length (iterate ds)) /\
  (forall i rec, r !! i = Some rec ->
     exists t, iterate ds !! i = Some t /\
       outcome (lime_entry lib model tokenizer args (i, t)) = Ret rec) /\
  log (run_lime lib model tokenizer ds args) =
  concat ((fun it => log (lime_entry lib model tokenizer args it))
            <$> enumerate (iterate ds)).
Proof.
  rewrite run_lime_for_each. intros H. split_and!.
  - rewrite (insert_loop_dom _ _ _ _ _ H), fst_enumerate, dom_empty_L.
    apply set_eq. intros x.
    rewrite elem_of_union, elem_of_list_to_set, elem_of_seq, elem_of_set_seq.
    set_solver by lia.
  - intros i rec Hi.
    destruct (insert_loop_lookup fst _ _ _ _ i H)
      as [([j t] & rec' & Hx & Hk & He & Hr) | [_ Hr]].
    + simpl in Hk. subst j. apply elem_of_enumerate in Hx.
      rewrite Hi in Hr. inversion Hr; subst. eauto.
    + rewrite Hi, lookup_empty in Hr. done.
  - by apply insert_loop_log with (r := r).
Qed.

(** [run_lime] returns as soon as every iteration returns. *)
Lemma run_lime_total (ds : dataset Score) :
  (forall i t, iterate ds !! i = Some t ->
     exists rec, outcome (lime_entry lib model tokenizer args (i, t)) = Ret rec) ->
  exists r, outcome (run_lime lib model tokenizer ds args) = Ret r.
Proof.
  intros Hall. rewrite run_lime_for_each.
  apply insert_loop_total. apply Forall_forall. intros [i t] Hi.
  apply elem_of_enumerate in Hi. by apply Hall.
Qed.

Lemma lime_entry_log (it : nat * item Score) :
  log (lime_entry lib model tokenizer args it) =
  match item_get it.2 "sentence" with
  | Ret s => [LimeExplain s 20 500]
  | _ => []
  end.
Proof.
  unfold lime_entry. rewrite log_bind. cbn [lift log outcome fst snd app].
  destruct (item_get it.2 "sentence") as [s | e |]; [| done ..].
  rewrite log_bind. cbn [call log outcome fst snd].
  destruct (lime_explain_instance lib _ s _ 20 500) as [exp_ | e |]; [| done ..].
  rewrite log_bind. cbn [lift log outcome fst snd app].
  by destruct (item_get it.2 "label").
Qed.

End RunLimeSpec.

(** ** The records of a result mapping *)

Section Records.

Context {Score StateDict : Type}.
Variable lib : Env Score StateDict.
Variable model : Model Score.
Variable tokenizer : Tokenizer.
Variable args : Args.

(** Where a record of [run_shap] comes from. *)
Lemma run_shap_record (ds : dataset Score) (r : results Score) (i : nat)
    (rec : record Score) :
  outcome (run_shap lib model tokenizer ds args) = Ret r ->
  r !! i = Some rec ->
  exists texts labels e sentence tokens attributions label base_value,
    column ds "sentence" = Ret texts /\ column ds "label" = Ret labels /\
    shap_explainer_of lib model tokenizer (slice texts i (i + bsize)) = Ret e /\
    texts !! i = Some sentence /\ data e !! 0 = Some tokens /\
    values e !! 0 = Some attributions /\ labels !! i = Some label /\
    base_values e !! 0 = Some base_value /\
    rec = shap_fields sentence label tokens attributions base_value.
Proof.
  intros H Hi. apply run_shap_Ret in H as (texts & labels & Ht & Hl & _ & Hrec & _).
  apply Hrec in Hi as [_ Hi]. apply shap_entry_Ret in Hi
    as (e & s & t & v & l & b & He & Hs & Hd & Hv & Hlb & Hb & ->).
  by exists texts, labels, e, s, t, v, l, b.
Qed.

(** Where a record of [run_lime] comes from. *)
Lemma run_lime_record (ds : dataset Score) (r : results Score) (i : nat)
    (rec : record Score) :
  outcome (run_lime lib model tokenizer ds args) = Ret r ->
  r !! i = Some rec ->
  exists t sentence exp_ label,
    iterate ds !! i = Some t /\
    item_get t "sentence" = Ret sentence /\
    lime_explain_instance lib [0%Z; 1%Z] sentence
      (predictor lib model tokenizer args) 20 500 = Ret exp_ /\
    item_get t "label" = Ret label /\
    rec = lime_fields sentence label exp_.
Proof.
  intros H Hi. apply run_lime_Ret in H as (_ & Hrec & _).
  apply Hrec in Hi as (t & Ht & Hi). apply lime_entry_Ret in Hi
    as (s & exp_ & l & Hs & He & Hl & ->).
  by exists t, s, exp_, l.
Qed.

End Records.

(** ** The demo world meets the library contracts *)

Lemma as_strs_lookup (vs : list (value Z)) (ss : list string) :
  Demo.as_strs vs = Ret ss -> length ss = length vs.
Proof.
  revert ss. induction vs as [| v vs IH]; intros ss; simpl.
  - by intros [= <-].
  - destruct (Demo.as_str v) as [s | |]; simpl; try done.
    destruct (Demo.as_strs vs) as [ss' | |]; simpl; try done.
    intros [= <-]. simpl. f_equal. by apply IH.
Qed.

Lemma demo_shap_rows_aligned (predict : list string -> res (list Z)) (tok : Tokenizer) :
  shap_rows_aligned (Demo.demo_shap predict tok).
Proof.
  intros texts e j toks vals He Hd Hv. unfold Demo.demo_shap in He.
  destruct (Demo.as_strs texts) as [strs | |]; simpl in He; try done.
  destruct (predict strs) as [base | |]; simpl in He; try done.
  inversion He; subst e. cbn [data values] in Hd, Hv.
  rewrite list_lookup_fmap in Hd. rewrite list_lookup_fmap in Hv.
  destruct (strs !! j) as [s |]; simpl in Hd, Hv; try done.
  inversion Hd; inversion Hv; subst. unfold Demo.word_scores.
  by rewrite length_fmap.
Qed.

(** * The claims *)

(** C1: in every record of a mapping returned by [run_shap] or by
    [run_lime], "tokens" and "attributions" are lists of the same length.
    For [run_shap] they are row 0 of [data] and of [values] of the
    explainer call on the window starting at the record's index, so the
    lengths agree as soon as SHAP returns aligned rows; for [run_lime] they
    are the first and second components of one list of pairs. *)
Theorem C1_tokens_attributions_aligned {Score StateDict : Type}
    (lib : Env Score StateDict) (model : Model Score) (tokenizer : Tokenizer)
    (args : Args) (ds : dataset Score) (r : results Score) (i : nat)
    (rec : record Score) :
  shap_rows_aligned (shap_explainer_of lib model tokenizer) ->
  r !! i = Some rec ->
  (outcome (run_shap lib model tokenizer ds args) = Ret r ->
   aligned rec /\
   exists texts e toks vals,
     column ds "sentence" = Ret texts /\
     shap_explainer_of lib model tokenizer (slice texts i (i + bsize)) = Ret e /\
     data e !! 0 = Some toks /\ values e !! 0 = Some vals /\
     rec !! "tokens" = Some (VList (VStr <$> toks)) /\
     rec !! "attributions" = Some (VList (VFloat <$> vals)))
  /\
  (outcome (run_lime lib model tokenizer ds args) = Ret r ->
   aligned rec /\
   exists exp_ : list (string * Score),
     rec !! "tokens" = Some (VList ((fun tp => VStr tp.1) <$> exp_)) /\
     rec !! "attributions" = Some (VList ((fun tp => VFloat tp.2) <$> exp_))).
Proof.
  intros Hal Hi. split; intros H.
  - destruct (run_shap_record _ _ _ _ _ _ _ _ H Hi)
      as (texts & labels & e & s & t & v & l & b & Ht & Hl & He & Hs & Hd & Hv & Hlb & Hb & ->).
    destruct (shap_fields_lookup s l t v b) as (_ & Htok & Hatt & _).
    split.
    + unfold aligned. rewrite Htok, Hatt, !length_fmap. eapply Hal; eauto.
    + by exists texts, e, t, v.
  - destruct (run_lime_record _ _ _ _ _ _ _ _ H Hi)
      as (t & s & exp_ & l & Ht & Hs & He & Hl & ->).
    destruct (lime_fields_lookup s l exp_) as (_ & Htok & Hatt & _).
    split.
    + unfold aligned. rewrite Htok, Hatt, !length_fmap. done.
    + by exists exp_.
Qed.

Lemma C1_witness :
  aligned (shap_fields (VStr "not bad at all") (VInt 1)
             ["not"; "bad"; "at"; "all"] [3; 3; 2; 3]%Z 7%Z)
  /\ aligned (lime_fields (VStr "not bad at all") (VInt 1)
                [("not", 3%Z); ("bad", 3%Z); ("at", 2%Z); ("all", 3%Z)]).
Proof.
  split.
  - refine (proj1 (proj1 (C1_tokens_attributions_aligned Demo.demo_lib Demo.demo_distil
             Demo.demo_tokenizer Demo.demo_run_args Demo.demo_ds
             Demo.demo_shap_results 2 _ (demo_shap_rows_aligned _ _) _) _)).
    + vm_compute. reflexivity.
    + vm_compute. reflexivity.
  - refine (proj1 (proj2 (C1_tokens_attributions_aligned Demo.demo_lib Demo.demo_distil
             Demo.demo_tokenizer Demo.demo_run_args Demo.demo_ds
             Demo.demo_lime_results 2 _ (demo_shap_rows_aligned _ _) _) _)).
    + vm_compute. reflexivity.
    + vm_compute. reflexivity.
Defined.

(** C7: a record of [run_shap] has exactly the keys "sentence", "tokens",
    "attributions", "label" and "base_value", the last one holding entry 0
    of [base_values] of the explainer call for the record's window; a
    record of [run_lime] has exactly the keys "sentence", "tokens",
    "attributions" and "label", and no "base_value". *)
Theorem C7_base_value_only_in_shap_records {Score StateDict : Type}
    (lib : Env Score StateDict) (model : Model Score) (tokenizer : Tokenizer)
    (args : Args) (ds : dataset Score) (r : results Score) (i : nat)
    (rec : record Score) :
  r !! i = Some rec ->
  (outcome (run_shap lib model tokenizer ds args) = Ret r ->
   dom rec = {[ "sentence"; "tokens"; "attributions"; "label"; "base_value" ]} /\
   exists texts e b,
     column ds "sentence" = Ret texts /\
     shap_explainer_of lib model tokenizer (slice texts i (i + bsize)) = Ret e /\
     base_values e !! 0 = Some b /\
     rec !! "base_value" = Some (VFloat b))
  /\
  (outcome (run_lime lib model tokenizer ds args) = Ret r ->
   dom rec = {[ "sentence"; "tokens"; "attributions"; "label" ]} /\
   rec !! "base_value" = None).
Proof.
  intros Hi. split; intros H.
  - destruct (run_shap_record _ _ _ _ _ _ _ _ H Hi)
      as (texts & labels & e & s & t & v & l & b & Ht & Hl & He & Hs & Hd & Hv & Hlb & Hb & ->).
    destruct (shap_fields_lookup s l t v b) as (_ & _ & _ & _ & Hbase & Hdom).
    split; [done |]. by exists texts, e, b.
  - destruct (run_lime_record _ _ _ _ _ _ _ _ H Hi)
      as (t & s & exp_ & l & Ht & Hs & He & Hl & ->).
    destruct (lime_fields_lookup s l exp_) as (_ & _ & _ & _ & Hbase & Hdom).
    done.
Qed.

Lemma C7_witness :
  dom (shap_fields (VStr "dull") (VInt 0) ["dull"] [4%Z] 7%Z : record Z)
    = {[ "sentence"; "tokens"; "attributions"; "label"; "base_value" ]}
  /\ (lime_fields (VStr "dull") (VInt 0) [("dull", 4%Z)] : record Z) !! "base_value"
    = None.
Proof.
  split.
  - exact (proj1 (proj1 (C7_base_value_only_in_shap_records Demo.demo_lib
        Demo.demo_distil Demo.demo_tokenizer Demo.demo_run_args Demo.demo_ds
        Demo.demo_shap_results 1
        (shap_fields (VStr "dull") (VInt 0) ["dull"] [4%Z] 7%Z)
        ltac:(vm_compute; reflexivity)) ltac:(vm_compute; reflexivity))).
  - exact (proj2 (proj2 (C7_base_value_only_in_shap_records Demo.demo_lib
        Demo.demo_distil Demo.demo_tokenizer Demo.demo_run_args Demo.demo_ds
        Demo.demo_lime_results 1
        (lime_fields (VStr "dull") (VInt 0) [("dull", 4%Z)])
        ltac:(vm_compute; reflexivity)) ltac:(vm_compute; reflexivity))).
Defined.

(** ** What the explainers are called on *)

Section Calls.

Context {Score StateDict : Type}.
Variable lib : Env Score StateDict.
Variable model : Model Score.
Variable tokenizer : Tokenizer.
Variable args : Args.

Lemma shap_calls_app (l1 l2 : list (event Score)) :
  shap_calls (l1 ++ l2) = shap_calls l1 ++ shap_calls l2.
Proof. unfold shap_calls. apply omap_app. Qed.

Lemma lime_calls_app (l1 l2 : list (event Score)) :
  lime_calls (l1 ++ l2) = lime_calls l1 ++ lime_calls l2.
Proof. unfold lime_calls. apply omap_app. Qed.

Lemma shap_calls_entries (explainer : list (value Score) -> res (Explanation Score))
    (texts labels : list (value Score)) (l : list nat) :
  shap_calls (concat ((fun i => log (shap_entry explainer texts labels i)) <$> l)) =
  (fun i => slice texts i (i + bsize)) <$> l.
Proof.
  induction l as [| i l IH]; [done |].
  rewrite !fmap_cons, concat_cons, shap_calls_app, IH, shap_entry_log. done.
Qed.

Lemma slice_cons_S {A} (a : A) (l : list A) (i : nat) :
  slice (a :: l) (S i) (S i + bsize) = slice l i (i + bsize).
Proof. unfold slice. simpl. done. Qed.

(** The windows of the SHAP loop, put end to end, are the texts. *)
Lemma concat_windows {A} (l : list A) :
  concat ((fun i => slice l i (i + bsize)) <$> seq 0 (length l)) = l.
Proof.
  induction l as [| a l IH]; [done |].
  simpl length. simpl seq. rewrite fmap_cons, concat_cons.
  rewrite <- fmap_S_seq, <- list_fmap_compose.
  rewrite (list_fmap_ext _ (fun i => slice l i (i + bsize)) (seq 0 (length l)))
    by (intros; apply slice_cons_S).
  by rewrite IH.
Qed.

Lemma windows_length {A} (l : list A) :
  Forall (fun w : list A => length w = bsize)
    ((fun i => slice l i (i + bsize)) <$> seq 0 (length l)).
Proof.
  apply Forall_fmap, Forall_forall. intros i Hi. apply elem_of_seq in Hi.
  simpl. unfold slice, bsize. rewrite length_take, length_drop. lia.
Qed.

Lemma lime_calls_entries (l : list (nat * item Score)) :
  Forall (fun it => exists rec,
            outcome (lime_entry lib model tokenizer args it) = Ret rec) l ->
  Forall2 (fun it s => item_get it.2 "sentence" = Ret s) l
    (lime_calls (concat ((fun it => log (lime_entry lib model tokenizer args it)) <$> l))).
Proof.
  induction 1 as [| it l [rec Hit] _ IH]; [constructor |].
  rewrite fmap_cons, concat_cons, lime_calls_app, lime_entry_log.
  apply lime_entry_Ret in Hit as (s & exp_ & lb & Hs & _).
  rewrite Hs. simpl. by constructor.
Qed.

Lemma snd_enumerate {A} (l : list A) : (enumerate l).*2 = l.
Proof. unfold enumerate. apply snd_zip. by rewrite length_seq. Qed.

End Calls.

(** C4: [run_lime] calls [explain_instance] once per item of the dataset,
    in order, each time on that item's sentence alone.  [run_shap] hands
    the explainer the windows [texts[i : i + bsize]] for the successive
    values of [cur_start]; whatever the outcome the calls made are the
    first windows, and when it returns the windows, each of [bsize] texts,
    put end to end are exactly [texts]: every index is covered once. *)
Theorem C4_one_window_per_call {Score StateDict : Type}
    (lib : Env Score StateDict) (model : Model Score) (tokenizer : Tokenizer)
    (args : Args) (ds : dataset Score) :
  (forall r, outcome (run_lime lib model tokenizer ds args) = Ret r ->
     Forall2 (fun t s => item_get t "sentence" = Ret s) (iterate ds)
       (lime_calls (log (run_lime lib model tokenizer ds args))))
  /\
  (forall texts, column ds "sentence" = Ret texts ->
     let calls := shap_calls (log (run_shap lib model tokenizer ds args)) in
     let windows := (fun i => slice texts i (i + bsize)) <$> seq 0 (length texts) in
     calls `prefix_of` windows /\
     (forall r, outcome (run_shap lib model tokenizer ds args) = Ret r ->
        calls = windows /\ concat calls = texts /\
        Forall (fun w : list (value Score) => length w = bsize) calls)).
Proof.
  split.
  - intros r H. pose proof H as H'. apply run_lime_Ret in H' as (_ & _ & ->).
    rewrite run_lime_for_each in H. apply insert_loop_entries in H.
    apply lime_calls_entries in H.
    rewrite <- (snd_enumerate (iterate ds)) at 1.
    by apply Forall2_fmap_l.
  - intros texts Ht calls windows. subst calls windows. split.
    + destruct (column ds "label") as [labels | e |] eqn:Hl.
      * rewrite (run_shap_for_each _ _ _ _ _ _ _ Ht Hl).
        rewrite <- (shap_calls_entries (shap_explainer_of lib model tokenizer) texts labels).
        destruct (insert_loop_log_prefix id
                    (shap_entry (shap_explainer_of lib model tokenizer) texts labels)
                    (seq 0 (length texts)) ∅) as [k ->].
        rewrite shap_calls_app. by eexists.
      * unfold run_shap. cbv zeta. rewrite Ht, bind_lift_ret, Hl. apply prefix_nil.
      * unfold run_shap. cbv zeta. rewrite Ht, bind_lift_ret, Hl. apply prefix_nil.
    + intros r H. apply run_shap_Ret in H as (texts' & labels & Ht' & _ & _ & _ & ->).
      rewrite Ht in Ht'. inversion Ht'; subst texts'.
      rewrite shap_calls_entries. split_and!; [done | apply concat_windows | apply windows_length].
Qed.

Lemma C4_witness :
  lime_calls (log (run_lime Demo.demo_lib Demo.demo_distil Demo.demo_tokenizer
                     Demo.demo_ds Demo.demo_run_args))
    = VStr <$> Demo.demo_sentences
  /\ concat (shap_calls (log (run_shap Demo.demo_lib Demo.demo_distil
                                Demo.demo_tokenizer Demo.demo_ds Demo.demo_run_args)))
    = VStr <$> Demo.demo_sentences.
Proof.
  pose proof (C4_one_window_per_call Demo.demo_lib Demo.demo_distil Demo.demo_tokenizer
                Demo.demo_run_args Demo.demo_ds) as [Hl Hs].
  split.
  - specialize (Hl Demo.demo_lime_results ltac:(vm_compute; reflexivity)).
    vm_compute. reflexivity.
  - assert (Hc : column Demo.demo_ds "sentence" = Ret (VStr <$> Demo.demo_sentences))
      by (vm_compute; reflexivity).
    assert (Hr : outcome (run_shap Demo.demo_lib Demo.demo_distil Demo.demo_tokenizer
                            Demo.demo_ds Demo.demo_run_args) = Ret Demo.demo_shap_results)
      by (vm_compute; reflexivity).
    exact (proj1 (proj2 (proj2 (Hs _ Hc) _ Hr))).
Defined.

(** ** One record per example *)

Section Examples.

Context {Score StateDict : Type}.
Variable lib : Env Score StateDict.
Variable model : Model Score.
Variable tokenizer : Tokenizer.
Variable args : Args.

(** [run_shap] on a dataset whose two columns have one entry per example. *)
Lemma run_shap_examples (ds : dataset Score) (texts labels : list (value Score)) :
  column ds "sentence" = Ret texts ->
  column ds "label" = Ret labels ->
  length labels = length texts ->
  shap_explains (shap_explainer_of lib model tokenizer) texts ->
  exists r,
    outcome (run_shap lib model tokenizer ds args) = Ret r /\
    dom r = set_seq 0 (length texts) /\
    forall i, i < length texts ->
      exists rec, r !! i = Some rec /\
        rec !! "sentence" = texts !! i /\ rec !! "label" = labels !! i.
Proof.
  intros Ht Hl Hlen Hex.
  destruct (run_shap_total lib model tokenizer args ds texts labels Ht Hl) as [r Hr].
  { intros i Hi.
    destruct (lookup_lt_is_Some_2 texts i Hi) as [t Hti].
    destruct (lookup_lt_is_Some_2 labels i ltac:(lia)) as [l Hli].
    destruct (Hex i t Hti) as (e & He & [d Hd] & [v Hv] & [b Hb]).
    exists (shap_fields t l d v b). apply shap_entry_Ret.
    exists e, t, d, v, l, b. rewrite (slice_singleton _ _ _ Hti). done. }
  exists r. split; [done |].
  pose proof Hr as Hr'.
  apply run_shap_Ret in Hr' as (texts' & labels' & Ht' & Hl' & Hdom & _).
  rewrite Ht in Ht'. inversion Ht'; subst texts'. split; [done |].
  intros i Hi.
  assert (Hin : i ∈ dom r) by (rewrite Hdom; apply elem_of_set_seq; lia).
  apply elem_of_dom in Hin as [rec Hrec]. exists rec. split; [done |].
  destruct (run_shap_record _ _ _ _ _ _ _ _ Hr Hrec)
    as (tx & lb & e & s & t & v & l & b & Htx & Hlb & _ & Hs & _ & _ & Hlab & _ & ->).
  rewrite Ht in Htx. rewrite Hl in Hlb. inversion Htx; inversion Hlb; subst.
  destruct (shap_fields_lookup s l t v b) as (-> & _ & _ & -> & _). done.
Qed.

(** [run_lime] on a dataset that iterates as one row dict per example. *)
Lemma run_lime_examples (ds : dataset Score) (rows : list (gmap string (value Score)))
    (texts labels : list (value Score)) :
  iterate ds = Row <$> rows ->
  length texts = length rows ->
  length labels = length rows ->
  (forall i row, rows !! i = Some row ->
     row !! "sentence" = texts !! i /\ row !! "label" = labels !! i) ->
  lime_explains (lime_explainer_of lib model tokenizer args) texts ->
  exists r,
    outcome (run_lime lib model tokenizer ds args) = Ret r /\
    dom r = set_seq 0 (length rows) /\
    forall i, i < length rows ->
      exists rec, r !! i = Some rec /\
        rec !! "sentence" = texts !! i /\ rec !! "label" = labels !! i.
Proof.
  intros Hit Hlt Hll Hrows Hex.
  destruct (run_lime_total lib model tokenizer args ds) as [r Hr].
  { intros i t Hi. rewrite Hit, list_lookup_fmap in Hi.
    destruct (rows !! i) as [row |] eqn:Hrow; [| done]. simpl in Hi.
    inversion Hi; subst t. destruct (Hrows i row Hrow) as [Hs Hl].
    pose proof (lookup_lt_Some _ _ _ Hrow) as Hlen.
    destruct (lookup_lt_is_Some_2 texts i ltac:(lia)) as [s Hsi].
    destruct (lookup_lt_is_Some_2 labels i ltac:(lia)) as [l Hli].
    destruct (Hex i s Hsi) as [exp_ He].
    exists (lime_fields s l exp_). apply lime_entry_Ret.
    exists s, exp_, l. simpl. unfold getkey. rewrite Hs, Hsi, Hl, Hli. done. }
  exists r. split; [done |].
  pose proof Hr as Hr'.
  apply run_lime_Ret in Hr' as (Hdom & _).
  rewrite Hit, length_fmap in Hdom. split; [done |].
  intros i Hi.
  assert (Hin : i ∈ dom r) by (rewrite Hdom; apply elem_of_set_seq; lia).
  apply elem_of_dom in Hin as [rec Hrec]. exists rec. split; [done |].
  destruct (run_lime_record _ _ _ _ _ _ _ _ Hr Hrec)
    as (t & s & exp_ & l & Ht & Hs & _ & Hl & ->).
  rewrite Hit, list_lookup_fmap in Ht.
  destruct (rows !! i) as [row |] eqn:Hrow; [| done]. simpl in Ht.
  inversion Ht; subst t. destruct (Hrows i row Hrow) as [Hs' Hl'].
  simpl in Hs, Hl. apply getkey_Ret in Hs. apply getkey_Ret in Hl.
  destruct (lime_fields_lookup s l exp_) as (-> & _ & _ & -> & _).
  by rewrite <- Hs', <- Hl'.
Qed.

(** The rows of a well-formed table carry the entries of its columns. *)
Lemma rows_of_lookup (t : table Score) (i : nat) (k : string) (c : list (value Score)) :
  columns t !! k = Some c -> i < num_rows t ->
  exists row, rows_of t !! i = Some row /\ row !! k = c !! i.
Proof.
  intros Hc Hi. exists (row_at (columns t) i). split.
  - unfold rows_of. rewrite list_lookup_fmap, lookup_seq_lt by done. done.
  - unfold row_at. rewrite lookup_omap, Hc. done.
Qed.

Lemma table_column_length (t : table Score) (k : string) (c : list (value Score)) :
  table_wf t -> columns t !! k = Some c -> length c = num_rows t.
Proof. intros Hwf Hc. exact (Hwf k c Hc). Qed.

End Examples.

(** ** The events of the two techniques *)

Section Events.

Context {Score StateDict : Type}.
Variable lib : Env Score StateDict.
Variable model : Model Score.
Variable tokenizer : Tokenizer.
Variable args : Args.

Lemma Forall_concat_fmap {A B} (P : B -> Prop) (f : A -> list B) (l : list A) :
  (forall x, Forall P (f x)) -> Forall P (concat (f <$> l)).
Proof.
  intros H. induction l as [| x l IH]; [constructor |].
  rewrite fmap_cons, concat_cons. apply Forall_app. split; [apply H | apply IH].
Qed.

Lemma Forall_prefix {A} (P : A -> Prop) (l1 l2 : list A) :
  l1 `prefix_of` l2 -> Forall P l2 -> Forall P l1.
Proof. intros [k ->] H. by apply Forall_app in H as [H _]. Qed.

(** [run_shap] only prints and calls the SHAP explainer. *)
Lemma run_shap_events (ds : dataset Score) :
  Forall shap_event (log (run_shap lib model tokenizer ds args)).
Proof.
  destruct (column ds "sentence") as [texts | e |] eqn:Ht;
    [| unfold run_shap; cbv zeta; rewrite Ht; constructor ..].
  destruct (column ds "label") as [labels | e |] eqn:Hl;
    [| unfold run_shap; cbv zeta; rewrite Ht, bind_lift_ret, Hl; constructor ..].
  rewrite (run_shap_for_each _ _ _ _ _ _ _ Ht Hl).
  eapply Forall_prefix; [apply insert_loop_log_prefix |].
  apply Forall_concat_fmap. intros i. rewrite shap_entry_log.
  repeat constructor.
Qed.

(** [run_lime] only calls [explain_instance]. *)
Lemma run_lime_events (ds : dataset Score) :
  Forall lime_event (log (run_lime lib model tokenizer ds args)).
Proof.
  rewrite run_lime_for_each.
  eapply Forall_prefix; [apply insert_loop_log_prefix |].
  apply Forall_concat_fmap. intros it. rewrite lime_entry_log.
  destruct (item_get it.2 "sentence"); repeat constructor.
Qed.

Lemma shap_events_no_dump (l : list (event Score)) :
  Forall shap_event l -> json_dumps l = [] /\ lime_calls l = [] /\ model_loads l = [].
Proof.
  induction 1 as [| ev l Hev _ (IH1 & IH2 & IH3)]; [done |].
  destruct ev; simpl in Hev; try done; simpl; by rewrite ?IH1, ?IH2, ?IH3.
Qed.

Lemma lime_events_no_dump (l : list (event Score)) :
  Forall lime_event l -> json_dumps l = [] /\ shap_calls l = [] /\ model_loads l = [].
Proof.
  induction 1 as [| ev l Hev _ (IH1 & IH2 & IH3)]; [done |].
  destruct ev; simpl in Hev; try done; simpl; by rewrite ?IH1, ?IH2, ?IH3.
Qed.

Lemma json_dumps_app (l1 l2 : list (event Score)) :
  json_dumps (l1 ++ l2) = json_dumps l1 ++ json_dumps l2.
Proof. unfold json_dumps. apply omap_app. Qed.

Lemma model_loads_app (l1 l2 : list (event Score)) :
  model_loads (l1 ++ l2) = model_loads l1 ++ model_loads l2.
Proof. unfold model_loads. apply omap_app. Qed.

(** Lines 157-160: the log is that of [run_shap], followed by one dump of
    what it returned. *)
Lemma shap_phase_run (mt : string) (ds : dataset Score) :
  let run := run_shap lib model tokenizer ds args in
  log (shap_phase lib model tokenizer (Some mt) args ds) =
    log run ++ match outcome run with
               | Ret r => [JsonDump (results_path mt (task args) "shap") r]
               | _ => []
               end
  /\ outcome (shap_phase lib model tokenizer (Some mt) args ds) =
     match outcome run with
     | Ret _ => Ret tt
     | Exc e => Exc e
     | Timeout => Timeout
     end.
Proof.
  unfold shap_phase. cbv zeta. rewrite log_bind, outcome_bind.
  destruct (outcome (run_shap lib model tokenizer ds args)); done.
Qed.

(** Lines 162-166: the log is that of [run_lime] on the dataset of line
    163, followed by one dump of what it returned. *)
Lemma lime_phase_run (mt : string) (ds ds' : dataset Score) :
  lime_input args ds = Ret ds' ->
  let run := run_lime lib model tokenizer ds' args in
  log (lime_phase lib model tokenizer (Some mt) args ds) =
    log run ++ match outcome run with
               | Ret r => [JsonDump (results_path mt (task args) "lime") r]
               | _ => []
               end
  /\ outcome (lime_phase lib model tokenizer (Some mt) args ds) =
     match outcome run with
     | Ret _ => Ret tt
     | Exc e => Exc e
     | Timeout => Timeout
     end.
Proof.
  intros Hin. unfold lime_phase. cbv zeta. rewrite Hin, bind_lift_ret.
  rewrite log_bind, outcome_bind.
  destruct (outcome (run_lime lib model tokenizer ds' args)); done.
Qed.

(** When line 163 raises, [run_lime] is not called and nothing is logged. *)
Lemma lime_phase_no_input (mt : option string) (ds : dataset Score) :
  (forall ds', lime_input args ds <> Ret ds') ->
  log (lime_phase lib model tokenizer mt args ds) = [].
Proof.
  intros Hin. unfold lime_phase.
  destruct (lime_input args ds) as [ds' | e |]; [by destruct (Hin ds') | done ..].
Qed.

End Events.

(** ** Lines 157-166 *)

Section Dump.

Context {Score StateDict : Type}.
Variable lib : Env Score StateDict.
Variable model : Model Score.
Variable tokenizer : Tokenizer.
Variable args : Args.
Variable model_type : option string.
Variable ds : dataset Score.

Lemma explain_and_dump_shap :
  exp_type args = shap ->
  explain_and_dump lib model tokenizer model_type args ds =
  shap_phase lib model tokenizer model_type args ds.
Proof.
  intros E. unfold explain_and_dump. rewrite E.
  change (bool_decide (shap = all) || bool_decide (shap = shap)) with true.
  change (bool_decide (shap = all) || bool_decide (shap = lime)) with false.
  cbv iota. rewrite <- (bind_ret_r (shap_phase _ _ _ _ _ _)) at 2.
  apply bind_ext. by intros [].
Qed.

Lemma explain_and_dump_lime :
  exp_type args = lime ->
  explain_and_dump lib model tokenizer model_type args ds =
  lime_phase lib model tokenizer model_type args ds.
Proof.
  intros E. unfold explain_and_dump. rewrite E.
  change (bool_decide (lime = all) || bool_decide (lime = shap)) with false.
  change (bool_decide (lime = all) || bool_decide (lime = lime)) with true.
  cbv iota.
  exact (bind_ret_l tt (fun _ => lime_phase lib model tokenizer model_type args ds)).
Qed.

Lemma explain_and_dump_all :
  exp_type args = all ->
  explain_and_dump lib model tokenizer model_type args ds =
  bind (shap_phase lib model tokenizer model_type args ds)
    (fun _ => lime_phase lib model tokenizer model_type args ds).
Proof.
  intros E. unfold explain_and_dump. rewrite E. done.
Qed.

End Dump.

(** C6: when the requested techniques return, lines 157-166 return and the
    files written are, in order: for "shap" the SHAP file alone, for "lime"
    the LIME file alone, for "all" the SHAP file and then the LIME file,
    each at explanation_results/<model_type>/<model_type>_<task>_<technique>.json
    and holding what the technique returned.  With "shap" the LIME
    explainer is never called, with "lime" the SHAP explainer is never
    called. *)
Theorem C6_requested_techniques_write_their_file {Score StateDict : Type}
    (lib : Env Score StateDict) (model : Model Score) (tokenizer : Tokenizer)
    (args : Args) (mt : string) (ds ds' : dataset Score) (r_s r_l : results Score) :
  (exp_type args <> lime ->
   outcome (run_shap lib model tokenizer ds args) = Ret r_s) ->
  (exp_type args <> shap ->
   lime_input args ds = Ret ds' /\
   outcome (run_lime lib model tokenizer ds' args) = Ret r_l) ->
  let m := explain_and_dump lib model tokenizer (Some mt) args ds in
  let file technique :=
    "explanation_results/" +:+ mt +:+ "/" +:+ mt +:+ "_" +:+ task args
      +:+ "_" +:+ technique +:+ ".json" in
  outcome m = Ret tt /\
  json_dumps (log m) =
    match exp_type args with
    | shap => [(file "shap", r_s)]
    | lime => [(file "lime", r_l)]
    | all => [(file "shap", r_s); (file "lime", r_l)]
    end /\
  (exp_type args = shap -> lime_calls (log m) = []) /\
  (exp_type args = lime -> shap_calls (log m) = []).
Proof.
  intros Hs Hl m file. subst m file.
  destruct (exp_type args) eqn:E.
  - (* lime *)
    destruct (Hl ltac:(done)) as [Hin Hr]. rewrite explain_and_dump_lime by done.
    destruct (lime_phase_run lib model tokenizer args mt ds ds' Hin) as [-> ->].
    rewrite Hr. destruct (lime_events_no_dump _ (run_lime_events lib model tokenizer args ds'))
      as (Hd & Hc & _).
    split_and!; [done | | done |].
    + rewrite json_dumps_app, Hd. done.
    + intros _. rewrite shap_calls_app, Hc. done.
  - (* shap *)
    specialize (Hs ltac:(done)). rewrite explain_and_dump_shap by done.
    destruct (shap_phase_run lib model tokenizer args mt ds) as [-> ->].
    rewrite Hs. destruct (shap_events_no_dump _ (run_shap_events lib model tokenizer args ds))
      as (Hd & Hc & _).
    split_and!; [done | | | done].
    + rewrite json_dumps_app, Hd. done.
    + intros _. rewrite lime_calls_app, Hc. done.
  - (* all *)
    specialize (Hs ltac:(done)). destruct (Hl ltac:(done)) as [Hin Hr].
    rewrite explain_and_dump_all by done. rewrite log_bind, outcome_bind.
    destruct (shap_phase_run lib model tokenizer args mt ds) as [-> ->].
    destruct (lime_phase_run lib model tokenizer args mt ds ds' Hin) as [-> ->].
    rewrite Hs, Hr.
    destruct (shap_events_no_dump _ (run_shap_events lib model tokenizer args ds))
      as (Hd & _).
    destruct (lime_events_no_dump _ (run_lime_events lib model tokenizer args ds'))
      as (Hd' & _).
    split_and!; [done | | done | done].
    rewrite !json_dumps_app, Hd, Hd'. done.
Qed.

Lemma C6_witness :
  json_dumps (log (explain_and_dump Demo.demo_lib Demo.demo_distil Demo.demo_tokenizer
                     (Some "distilbert-base-uncased") Demo.demo_run_args Demo.demo_ds))
  = [("explanation_results/distilbert-base-uncased/distilbert-base-uncased_sst2_shap.json",
      Demo.demo_shap_results);
     ("explanation_results/distilbert-base-uncased/distilbert-base-uncased_sst2_lime.json",
      Demo.demo_lime_results)].
Proof.
  assert (Hs : exp_type Demo.demo_run_args <> lime ->
               outcome (run_shap Demo.demo_lib Demo.demo_distil Demo.demo_tokenizer
                          Demo.demo_ds Demo.demo_run_args) = Ret Demo.demo_shap_results)
    by (intros _; vm_compute; reflexivity).
  assert (Hl : exp_type Demo.demo_run_args <> shap ->
               lime_input Demo.demo_run_args Demo.demo_ds = Ret Demo.demo_ds /\
               outcome (run_lime Demo.demo_lib Demo.demo_distil Demo.demo_tokenizer
                          Demo.demo_ds Demo.demo_run_args) = Ret Demo.demo_lime_results)
    by (intros _; split; vm_compute; reflexivity).
  pose proof (C6_requested_techniques_write_their_file Demo.demo_lib Demo.demo_distil
                Demo.demo_tokenizer Demo.demo_run_args "distilbert-base-uncased"
                Demo.demo_ds Demo.demo_ds Demo.demo_shap_results Demo.demo_lime_results
                Hs Hl) as H.
  cbv zeta in H. destruct H as (_ & H & _). exact H.
Defined.

(** ** What is dumped *)

Section Dumped.

Context {Score StateDict : Type}.
Variable lib : Env Score StateDict.
Variable model : Model Score.
Variable tokenizer : Tokenizer.
Variable args : Args.
Variable mt : string.
Variable ds : dataset Score.

Lemma shap_phase_dumps :
  json_dumps (log (shap_phase lib model tokenizer (Some mt) args ds)) =
  match outcome (run_shap lib model tokenizer ds args) with
  | Ret r => [(results_path mt (task args) "shap", r)]
  | _ => []
  end.
Proof.
  destruct (shap_phase_run lib model tokenizer args mt ds) as [-> _].
  destruct (shap_events_no_dump _ (run_shap_events lib model tokenizer args ds))
    as (Hd & _).
  rewrite json_dumps_app, Hd.
  by destruct (outcome (run_shap lib model tokenizer ds args)).
Qed.

Lemma lime_phase_dumps :
  json_dumps (log (lime_phase lib model tokenizer (Some mt) args ds)) =
  match lime_input args ds with
  | Ret ds' =>
      match outcome (run_lime lib model tokenizer ds' args) with
      | Ret r => [(results_path mt (task args) "lime", r)]
      | _ => []
      end
  | _ => []
  end.
Proof.
  destruct (lime_input args ds) as [ds' | e |] eqn:Hin.
  - destruct (lime_phase_run lib model tokenizer args mt ds ds' Hin) as [-> _].
    destruct (lime_events_no_dump _ (run_lime_events lib model tokenizer args ds'))
      as (Hd & _).
    rewrite json_dumps_app, Hd.
    by destruct (outcome (run_lime lib model tokenizer ds' args)).
  - rewrite lime_phase_no_input; [done | intros ds'; by rewrite Hin].
  - rewrite lime_phase_no_input; [done | intros ds'; by rewrite Hin].
Qed.

(** Every object dumped by lines 157-166 is the mapping a technique
    returned. *)
Lemma dumped_is_returned (p : string) (o : results Score) :
  (p, o) ∈ json_dumps (log (explain_and_dump lib model tokenizer (Some mt) args ds)) ->
  outcome (run_shap lib model tokenizer ds args) = Ret o
  \/ exists ds', lime_input args ds = Ret ds' /\
       outcome (run_lime lib model tokenizer ds' args) = Ret o.
Proof.
  assert (Hs : (p, o) ∈ json_dumps (log (shap_phase lib model tokenizer (Some mt) args ds)) ->
               outcome (run_shap lib model tokenizer ds args) = Ret o).
  { rewrite shap_phase_dumps.
    destruct (outcome (run_shap lib model tokenizer ds args)) as [r | e |];
      [| by intros ?%elem_of_nil ..].
    intros [= _ ->]%list_elem_of_singleton. done. }
  assert (Hl : (p, o) ∈ json_dumps (log (lime_phase lib model tokenizer (Some mt) args ds)) ->
               exists ds', lime_input args ds = Ret ds' /\
                 outcome (run_lime lib model tokenizer ds' args) = Ret o).
  { rewrite lime_phase_dumps.
    destruct (lime_input args ds) as [ds' | e |]; [| by intros ?%elem_of_nil ..].
    destruct (outcome (run_lime lib model tokenizer ds' args)) as [r | e |] eqn:Hr;
      [| by intros ?%elem_of_nil ..].
    intros [= _ ->]%list_elem_of_singleton. eauto. }
  destruct (exp_type args) eqn:E.
  - rewrite explain_and_dump_lime by done. intros H. right. auto.
  - rewrite explain_and_dump_shap by done. intros H. left. auto.
  - rewrite explain_and_dump_all by done. rewrite log_bind, json_dumps_app.
    intros [H | H]%elem_of_app; [left; auto |]. right.
    destruct (outcome (shap_phase lib model tokenizer (Some mt) args ds));
      [auto | by apply elem_of_nil in H ..].
Qed.

End Dumped.

(** C2: on a validation table of [num_rows] examples with a "sentence" and
    a "label" column, and when the explainers return on every sentence,
    [run_shap] and [run_lime] each return a mapping whose keys are exactly
    0 .. num_rows - 1 and whose record at key [i] stores entry [i] of the
    "sentence" column and entry [i] of the "label" column.  Every object
    written by the dump of lines 157-166 is such a returned mapping. *)
Theorem C2_one_record_per_example {Score StateDict : Type}
    (lib : Env Score StateDict) (model : Model Score) (tokenizer : Tokenizer)
    (args : Args) (t : table Score) (texts labels : list (value Score)) :
  table_wf t ->
  columns t !! "sentence" = Some texts ->
  columns t !! "label" = Some labels ->
  shap_explains (shap_explainer_of lib model tokenizer) texts ->
  lime_explains (lime_explainer_of lib model tokenizer args) texts ->
  (exists r,
     outcome (run_shap lib model tokenizer (HFDataset t) args) = Ret r /\
     dom r = set_seq 0 (num_rows t) /\
     forall i, i < num_rows t ->
       exists rec, r !! i = Some rec /\
         rec !! "sentence" = texts !! i /\ rec !! "label" = labels !! i)
  /\
  (exists r,
     outcome (run_lime lib model tokenizer (HFDataset t) args) = Ret r /\
     dom r = set_seq 0 (num_rows t) /\
     forall i, i < num_rows t ->
       exists rec, r !! i = Some rec /\
         rec !! "sentence" = texts !! i /\ rec !! "label" = labels !! i)
  /\
  (forall mt ds p o,
     (p, o) ∈ json_dumps (log (explain_and_dump lib model tokenizer (Some mt) args ds)) ->
     outcome (run_shap lib model tokenizer ds args) = Ret o
     \/ exists ds', lime_input args ds = Ret ds' /\
          outcome (run_lime lib model tokenizer ds' args) = Ret o).
Proof.
  intros Hwf Ht Hl Hshap Hlime.
  pose proof (table_column_length t _ _ Hwf Ht) as Hnt.
  pose proof (table_column_length t _ _ Hwf Hl) as Hnl.
  split_and!.
  - destruct (run_shap_examples lib model tokenizer args (HFDataset t) texts labels)
      as (r & Hr & Hdom & Hrec); try done.
    + simpl. unfold getkey. by rewrite Ht.
    + simpl. unfold getkey. by rewrite Hl.
    + lia.
    + exists r. rewrite <- Hnt. done.
  - destruct (run_lime_examples lib model tokenizer args (HFDataset t) (rows_of t)
                texts labels) as (r & Hr & Hdom & Hrec); try done.
    + unfold rows_of. by rewrite length_fmap, length_seq.
    + unfold rows_of. by rewrite length_fmap, length_seq.
    + intros i row Hrow.
      assert (Hi : i < num_rows t).
      { apply lookup_lt_Some in Hrow. unfold rows_of in Hrow.
        by rewrite length_fmap, length_seq in Hrow. }
      destruct (rows_of_lookup t i _ _ Ht Hi) as (row1 & Hr1 & Hs1).
      destruct (rows_of_lookup t i _ _ Hl Hi) as (row2 & Hr2 & Hs2).
      rewrite Hrow in Hr1, Hr2. inversion Hr1; inversion Hr2; subst. done.
    + exists r. unfold rows_of in Hdom, Hrec.
      rewrite length_fmap, length_seq in Hdom, Hrec. done.
  - intros mt ds p o. apply dumped_is_returned.
Qed.

Lemma demo_shap_explains :
  shap_explains (shap_explainer_of Demo.demo_lib Demo.demo_distil Demo.demo_tokenizer)
    (VStr <$> Demo.demo_sentences).
Proof.
  intros i t Hi.
  do 5 (destruct i as [| i];
        [inversion Hi; subst t; eexists;
         split; [reflexivity | split_and!; eexists; reflexivity] |]).
  inversion Hi.
Qed.

Lemma demo_lime_explains :
  lime_explains
    (lime_explainer_of Demo.demo_lib Demo.demo_distil Demo.demo_tokenizer
       Demo.demo_run_args)
    (VStr <$> Demo.demo_sentences).
Proof.
  intros i t Hi.
  do 5 (destruct i as [| i]; [inversion Hi; subst t; eexists; reflexivity |]).
  inversion Hi.
Qed.

Lemma demo_raw_wf : table_wf (Demo.demo_raw 5).
Proof.
  intros k c Hc. unfold Demo.demo_raw in Hc. cbn [columns num_rows] in *.
  apply lookup_insert_Some in Hc as [[_ <-] | [_ Hc]]; [done |].
  apply lookup_insert_Some in Hc as [[_ <-] | [_ Hc]]; [done |].
  apply lookup_singleton_Some in Hc as [_ <-]. done.
Qed.

Lemma C2_witness :
  dom Demo.demo_shap_results = set_seq 0 5 /\ dom Demo.demo_lime_results = set_seq 0 5.
Proof.
  assert (Ht : columns (Demo.demo_raw 5) !! "sentence" = Some (VStr <$> Demo.demo_sentences))
    by (vm_compute; reflexivity).
  assert (Hl : columns (Demo.demo_raw 5) !! "label" = Some (VInt <$> Demo.demo_labels))
    by (vm_compute; reflexivity).
  destruct (C2_one_record_per_example Demo.demo_lib Demo.demo_distil Demo.demo_tokenizer
              Demo.demo_run_args (Demo.demo_raw 5)
              (VStr <$> Demo.demo_sentences) (VInt <$> Demo.demo_labels)
              demo_raw_wf Ht Hl demo_shap_explains demo_lime_explains)
    as ((r & Hr & Hdom & _) & (r' & Hr' & Hdom' & _) & _).
  assert (Es : outcome (run_shap Demo.demo_lib Demo.demo_distil Demo.demo_tokenizer
                          (HFDataset (Demo.demo_raw 5)) Demo.demo_run_args)
               = Ret Demo.demo_shap_results) by (vm_compute; reflexivity).
  assert (El : outcome (run_lime Demo.demo_lib Demo.demo_distil Demo.demo_tokenizer
                          (HFDataset (Demo.demo_raw 5)) Demo.demo_run_args)
               = Ret Demo.demo_lime_results) by (vm_compute; reflexivity).
  rewrite Es in Hr. rewrite El in Hr'. inversion Hr; inversion Hr'; subst r r'.
  split; assumption.
Defined.

(** ** main, step by step *)

Section MainSteps.

Context {Score StateDict : Type}.
Variable lib : Env Score StateDict.

(** Lines 103-107 always return: a [TypeError] is printed and dropped. *)
Lemma resolve_task_run (args0 : Args) :
  resolve_task (Score := Score) args0 = (resolve_log args0, Ret (resolved args0)).
Proof.
  destruct args0 as [[p |] tch tk et dbg]; unfold resolve_task, resolve_log, resolved,
    resolved_task, set_task; simpl; done.
Qed.

Lemma resolved_fields (args0 : Args) :
  model_path (resolved args0) = model_path args0 /\
  is_teacher (resolved args0) = is_teacher args0 /\
  task (resolved args0) = resolved_task args0 /\
  exp_type (resolved args0) = exp_type args0 /\
  debug (resolved args0) = debug args0.
Proof. done. Qed.

(** [main] is lines 103-107 followed by the rest of the program on the
    resolved namespace. *)
Lemma main_run (args0 : Args) :
  task (resolved args0) ∈ GLUE_CONFIGS lib ->
  let rest := bind (obtain_model lib (resolved args0)) (main_from_model lib) in
  main lib args0 = (resolve_log args0 ++ log rest, outcome rest).
Proof.
  intros Hin rest. unfold main. rewrite resolve_task_run, bind_pair_ret.
  rewrite bool_decide_eq_true_2 by done. by rewrite bind_ret_l.
Qed.

(** When the assertion of line 108 fails, nothing else runs. *)
Lemma main_assert_fails (args0 : Args) :
  task (resolved args0) ∉ GLUE_CONFIGS lib ->
  main lib args0 = (resolve_log args0, Exc (mk_exn AssertionError "")).
Proof.
  intros Hin. unfold main. rewrite resolve_task_run, bind_pair_ret.
  rewrite bool_decide_eq_false_2 by done.
  unfold bind, raise. simpl. by rewrite app_nil_r.
Qed.

(** Lines 135-154 when nothing raises. *)
Lemma main_from_model_run (args : Args) (model : Model Score) (mt : string)
    (tokenizer : Tokenizer) (val_dataset val_raw : table Score) :
  setup_ok lib args tokenizer val_dataset val_raw ->
  let fr := mk_frame args (Some model) (Some mt) in
  let n := if debug args then 4 else num_rows val_dataset in
  let explain :=
    explain_and_dump lib model tokenizer (Some mt) args (explained_dataset args val_raw) in
  main_from_model lib fr = (setup_log lib args mt n ++ log explain, outcome explain).
Proof.
  intros (Htok & Hsplit & Hcols) fr n explain. subst fr n explain.
  assert (Hc1 : forallb (fun c => bool_decide (is_Some (columns val_dataset !! c)))
                  ["token_type_ids"] = true).
  { simpl in Hcols |- *. repeat (apply andb_prop in Hcols as [? Hcols]).
    by rewrite andb_true_r. }
  unfold main_from_model, setup_log. cbv zeta.
  cbn [fr_args fr_model fr_model_type local].
  destruct (negb (path_exists lib "explanation_results")) eqn:E1;
    destruct (negb (path_exists lib ("explanation_results/" +:+ mt))) eqn:E2;
    cbn [app];
    (eapply step_lift; [reflexivity |]);
    (eapply step_emit); (eapply step_emit);
    (eapply step_call; [exact Htok |]);
    (eapply step_emit);
    (eapply step_call; [exact Hsplit |]);
    (eapply step_lift; [unfold set_format; rewrite Hcols; reflexivity |]);
    (eapply step_lift; [unfold remove_columns; rewrite Hc1; reflexivity |]);
    cbn [num_rows]; (eapply step_emit);
    first [eapply step_emit | eapply step_ret];
    rewrite bind_assoc;
    (eapply step_lift; [reflexivity |]); rewrite E2;
    first [eapply step_emit | eapply step_ret];
    unfold explained_dataset;
    by destruct (explain_and_dump _ _ _ _ _ _).
Qed.

End MainSteps.

(** ** Model loading *)

Section Loading.

Context {Score StateDict : Type}.
Variable lib : Env Score StateDict.

Lemma Forall_log_bind {A B} (P : event Score -> Prop) (m : M Score A)
    (k : A -> M Score B) :
  Forall P (log m) -> (forall a, Forall P (log (k a))) -> Forall P (log (bind m k)).
Proof.
  intros Hm Hk. rewrite log_bind. apply Forall_app. split; [done |].
  destruct (outcome m); [apply Hk | constructor ..].
Qed.

Lemma not_a_load_weaken_shap (l : list (event Score)) :
  Forall shap_event l -> Forall not_a_load l.
Proof. intros H. eapply Forall_impl; [exact H |]. by intros []. Qed.

Lemma not_a_load_weaken_lime (l : list (event Score)) :
  Forall lime_event l -> Forall not_a_load l.
Proof. intros H. eapply Forall_impl; [exact H |]. by intros []. Qed.

Lemma no_loads (l : list (event Score)) : Forall not_a_load l -> model_loads l = [].
Proof.
  induction 1 as [| ev l Hev _ IH]; [done |]. by destruct ev.
Qed.

Lemma explain_and_dump_not_a_load (model : Model Score) (tokenizer : Tokenizer)
    (mt : option string) (args : Args) (ds : dataset Score) :
  Forall not_a_load (log (explain_and_dump lib model tokenizer mt args ds)).
Proof.
  assert (Hs : Forall not_a_load (log (shap_phase lib model tokenizer mt args ds))).
  { unfold shap_phase. apply Forall_log_bind.
    - apply not_a_load_weaken_shap, run_shap_events.
    - intros r. apply Forall_log_bind; [constructor |].
      intros m. by repeat constructor. }
  assert (Hl : Forall not_a_load (log (lime_phase lib model tokenizer mt args ds))).
  { unfold lime_phase. apply Forall_log_bind; [constructor |]. intros ds'.
    apply Forall_log_bind.
    - apply not_a_load_weaken_lime, run_lime_events.
    - intros r. apply Forall_log_bind; [constructor |].
      intros m. by repeat constructor. }
  unfold explain_and_dump. apply Forall_log_bind.
  - destruct (_ || _); [done | constructor].
  - intros _. destruct (_ || _); [done | constructor].
Qed.

(** After the model-loading block, [from_pretrained] is never called. *)
Lemma main_from_model_not_a_load (fr : frame) :
  Forall not_a_load (log (main_from_model lib fr)).
Proof.
  unfold main_from_model. cbv zeta.
  apply Forall_log_bind; [constructor |]. intros model.
  apply Forall_log_bind; [by repeat constructor |]. intros _.
  apply Forall_log_bind; [by repeat constructor |]. intros _.
  apply Forall_log_bind; [by repeat constructor |]. intros tokenizer.
  apply Forall_log_bind; [by repeat constructor |]. intros _.
  apply Forall_log_bind; [by repeat constructor |]. intros [vd raw].
  apply Forall_log_bind; [constructor |]. intros vd1.
  apply Forall_log_bind; [constructor |]. intros vd2.
  apply Forall_log_bind; [by repeat constructor |]. intros _.
  apply Forall_log_bind.
  { destruct (negb _); by repeat constructor. }
  intros _. apply Forall_log_bind.
  { apply Forall_log_bind; [constructor |]. intros mt.
    destruct (negb _); by repeat constructor. }
  intros _. apply explain_and_dump_not_a_load.
Qed.

(** Lines 115-133 in a run of [main] outside debug mode. *)
Lemma main_load_run (args0 : Args) :
  debug args0 = false ->
  task (resolved args0) ∈ GLUE_CONFIGS lib ->
  main lib args0 =
  bind (resolve_log args0 ++ log (load_model lib (mk_frame (resolved args0) None None)),
        outcome (load_model lib (mk_frame (resolved args0) None None)))
    (main_from_model lib).
Proof.
  intros Hd Hin. rewrite main_run by done. cbv zeta.
  unfold obtain_model. cbn [debug resolved set_task]. rewrite Hd.
  destruct (load_model lib _) as [l [fr' | e |]]; simpl.
  - destruct (main_from_model lib fr') as [l2 o2]. simpl. by rewrite app_assoc.
  - done.
  - done.
Qed.

End Loading.

Lemma load_model_handlers {Score StateDict : Type} (lib : Env Score StateDict)
    (fr0 fr : frame) (evs : list (event Score)) (e : exn) :
  load_model_try lib fr0 = (evs, fr, Exc e) ->
  load_model lib fr0 =
  if isinstance e FileNotFoundError || isinstance e RuntimeError || isinstance e TypeError
  then (evs ++ [Print (VStr ("error: " +:+ exn_msg e))], Ret fr)
  else (evs, Exc e).
Proof.
  intros H. unfold load_model. rewrite H.
  by destruct (isinstance e FileNotFoundError), (isinstance e RuntimeError),
    (isinstance e TypeError).
Qed.

(** C3: the two [try] blocks are the only recovery and all they do is
    print.  A missing model path makes the task regex raise [TypeError]:
    "invalid model path: ..." is printed and the namespace is left as it
    was.  When the model-loading block raises an instance of
    [FileNotFoundError], [RuntimeError] or [TypeError], "error: <message>"
    is printed and the program goes on with line 135, with the variables as
    the block left them; any other exception ends the program.  After the
    block [from_pretrained] is never called again. *)
Theorem C3_caught_exceptions_are_only_printed {Score StateDict : Type}
    (lib : Env Score StateDict) (args0 : Args) :
  (model_path args0 = None ->
   resolve_task (Score := Score) args0 =
   ([Print (VStr "invalid model path: expected string or bytes-like object")],
    Ret args0))
  /\
  (forall evs fr e,
     debug args0 = false ->
     task (resolved args0) ∈ GLUE_CONFIGS lib ->
     load_model_try lib (mk_frame (resolved args0) None None) = (evs, fr, Exc e) ->
     main lib args0 =
     if isinstance e FileNotFoundError || isinstance e RuntimeError
        || isinstance e TypeError
     then (resolve_log args0 ++ evs ++ [Print (VStr ("error: " +:+ exn_msg e))]
             ++ log (main_from_model lib fr),
           outcome (main_from_model lib fr))
     else (resolve_log args0 ++ evs, Exc e))
  /\
  (forall fr, model_loads (log (main_from_model lib fr)) = []).
Proof.
  split_and!.
  - intros Hp. rewrite resolve_task_run. unfold resolve_log, resolved, resolved_task.
    rewrite Hp. by destruct args0.
  - intros evs fr e Hd Hin Htry. rewrite main_load_run by done.
    rewrite (load_model_handlers lib _ _ _ _ Htry).
    destruct (_ || _); simpl.
    + destruct (main_from_model lib fr) as [l o]. simpl.
      by rewrite <- !app_assoc.
    + done.
  - intros fr. apply no_loads, main_from_model_not_a_load.
Qed.

(** C10: outside debug mode, when the model path matches neither
    [teacher_(.+)_] nor [student_(.+)_] (and the task passes the assertion
    of line 108), [main] ends with an [AttributeError], which none of the
    three handlers catches, and has logged nothing: no "error: ..." line is
    printed and line 135 is not reached. *)
Theorem C10_unmatched_path_is_uncaught {Score StateDict : Type}
    (lib : Env Score StateDict) (args0 : Args) (p : string) :
  debug args0 = false ->
  model_path args0 = Some p ->
  re_search teacher_pat p = None ->
  re_search student_pat p = None ->
  task (resolved args0) ∈ GLUE_CONFIGS lib ->
  let e := mk_exn AttributeError "'NoneType' object has no attribute 'group'" in
  main lib args0 = ([], Exc e) /\
  isinstance e FileNotFoundError = false /\
  isinstance e RuntimeError = false /\
  isinstance e TypeError = false.
Proof.
  intros Hd Hp Ht Hs Hin e. split; [| done].
  rewrite main_load_run by done.
  assert (Htry : load_model_try lib (mk_frame (resolved args0) None None)
                 = ([], mk_frame (resolved args0) None None, Exc e)).
  { unfold load_model_try. cbn [fr_args resolved set_task model_path].
    rewrite Hp. cbn [re_search_arg and_then]. rewrite Ht, Hs. done. }
  rewrite (load_model_handlers lib _ _ _ _ Htry).
  unfold resolve_log. rewrite Hp. done.
Qed.

Lemma C10_witness :
  main (Demo.demo_env 5 "ckpt/bert_sst2.pt")
    (Demo.demo_args (Some "ckpt/bert_sst2.pt") all false)
  = ([], Exc (mk_exn AttributeError "'NoneType' object has no attribute 'group'")).
Proof.
  refine (proj1 (C10_unmatched_path_is_uncaught (Demo.demo_env 5 "ckpt/bert_sst2.pt")
                   (Demo.demo_args (Some "ckpt/bert_sst2.pt") all false)
                   "ckpt/bert_sst2.pt" _ _ _ _ _)).
  - reflexivity.
  - reflexivity.
  - vm_compute. reflexivity.
  - vm_compute. reflexivity.
  - vm_compute. repeat constructor.
Defined.

Lemma C3_witness :
  let env := Demo.demo_env 5 "elsewhere.pt" in
  let args0 := Demo.demo_args (Some Demo.demo_ckpt) shap false in
  let fr := mk_frame (set_is_teacher (resolved args0) false)
              (Some (Demo.demo_model "distilbert" 2)) (Some "distilbert-base-uncased") in
  main env args0 =
  ([FromPretrained "distilbert-base-uncased" 2; TorchLoad Demo.demo_ckpt;
    Print (VStr ("error: No such file or directory: " +:+ Demo.demo_ckpt))]
     ++ log (main_from_model env fr),
   outcome (main_from_model env fr)).
Proof.
  intros env args0 fr.
  assert (Hd : debug args0 = false) by reflexivity.
  assert (Hin : task (resolved args0) ∈ GLUE_CONFIGS env)
    by (vm_compute; repeat constructor).
  assert (Htry : load_model_try env (mk_frame (resolved args0) None None)
                 = ([FromPretrained "distilbert-base-uncased" 2; TorchLoad Demo.demo_ckpt],
                    fr,
                    Exc (mk_exn FileNotFoundError
                           ("No such file or directory: " +:+ Demo.demo_ckpt))))
    by (vm_compute; reflexivity).
  exact (proj1 (proj2 (C3_caught_exceptions_are_only_printed env args0)) _ _ _ Hd Hin Htry).
Defined.

(** ** predict_func *)

Section Predict.

Context {Score : Type}.
Variable model : Model Score.
Variable tokenizer : Tokenizer.

Lemma rbind_Ret {A B} (r : res A) (k : A -> res B) (b : B) :
  rbind r k = Ret b <-> exists a, r = Ret a /\ k a = Ret b.
Proof.
  destruct r as [a | e |]; simpl; split; try done; eauto.
  - by intros (a' & [= <-] & H).
  - by intros (? & ? & _).
  - by intros (? & ? & _).
Qed.





End Predict.

(** The only model [load_model_try] asks for is one with
    [num_labels_for task] labels. *)
Lemma load_model_try_loads {Score StateDict : Type} (lib : Env Score StateDict)
    (fr0 fr : frame) (evs : list (event Score)) (r : res unit) (name : string) (n : nat) :
  load_model_try lib fr0 = (evs, fr, r) ->
  (name, n) ∈ model_loads evs ->
  n = num_labels_for (task (fr_args fr0)).
Proof.
  unfold load_model_try. cbv zeta.
  destruct (model_path (fr_args fr0)) as [p |]; simpl;
    [| intros [= <- _ _] H; by apply elem_of_nil in H].
  destruct (match re_search teacher_pat p with
            | Some g => Ret (g, true)
            | None => let? g := group1 (re_search student_pat p) in Ret (g, false)
            end) as [[mt teacher] | e |]; simpl;
    [| intros [= <- _ _] H; by apply elem_of_nil in H ..].
  destruct (from_pretrained lib mt _) as [m | e |]; simpl.
  - destruct (torch_load lib p) as [sd | e |]; simpl.
    + destruct (load_state_dict lib m sd) as [m' [e |]]; simpl;
        intros [= <- _ _] H; apply list_elem_of_singleton in H; congruence.
    + intros [= <- _ _] H. apply list_elem_of_singleton in H. congruence.
    + intros [= <- _ _] H. apply list_elem_of_singleton in H. congruence.
  - intros [= <- _ _] H. apply list_elem_of_singleton in H. congruence.
  - intros [= <- _ _] H. apply list_elem_of_singleton in H. congruence.
Qed.

(** * Further properties *)

(** ** The matcher against the semantics of the patterns *)

Section Matcher.

Variable p : pattern.

Lemma starts_with_spec (l s : list ascii) :
  starts_with l s = true <-> exists post, s = l ++ post.
Proof.
  revert s. induction l as [| c l IH]; intros s; simpl.
  - split; [intros _; by exists s | done].
  - destruct s as [| d s].
    + split; [done | by intros [post H]].
    + destruct (Ascii.eqb c d) eqn:E.
      * apply Ascii.eqb_eq in E as ->. rewrite IH. split.
        -- intros [post ->]. by exists post.
        -- intros [post [= ->]]. by exists post.
      * split; [done |]. intros [post [= <- _]]. by rewrite Ascii.eqb_refl in E.
Qed.

Lemma span_le (C : ascii -> bool) (s : list ascii) : span C s <= length s.
Proof. induction s as [| c s IH]; simpl; [done |]. destruct (C c); simpl; lia. Qed.

Lemma span_Forall (C : ascii -> bool) (s : list ascii) (k : nat) :
  k <= span C s -> Forall (fun c => C c = true) (take k s).
Proof.
  revert k. induction s as [| c s IH]; intros k; simpl.
  - intros Hk. rewrite take_nil. constructor.
  - destruct (C c) eqn:E; intros Hk.
    + destruct k as [| k]; simpl; [constructor |]. constructor; [done |].
      apply IH. lia.
    + replace k with 0 by lia. constructor.
Qed.

Lemma span_max (C : ascii -> bool) (g post : list ascii) :
  Forall (fun c => C c = true) g -> length g <= span C (g ++ post).
Proof.
  induction 1 as [| c g Hc _ IH]; simpl; [lia |]. rewrite Hc. lia.
Qed.

Lemma backtrack_Some (L2 s : list ascii) (k : nat) (g : list ascii) :
  backtrack L2 s k = Some g ->
  exists j, 1 <= j <= k /\ g = take j s /\ starts_with L2 (drop j s) = true /\
    forall j', j < j' <= k -> starts_with L2 (drop j' s) = false.
Proof.
  induction k as [| k IH]; [done |]. cbn [backtrack].
  destruct (starts_with L2 (drop (S k) s)) eqn:E.
  - intros [= <-]. exists (S k). split_and!; [lia | lia | done | done | intros; lia].
  - intros H. destruct (IH H) as (j & Hj & -> & Hs & Hmax).
    exists j. split_and!; [lia | lia | done | done |].
    intros j' Hj'. destruct (decide (j' = S k)) as [-> | Hne]; [done |].
    apply Hmax. lia.
Qed.

Lemma backtrack_None (L2 s : list ascii) (k : nat) :
  backtrack L2 s k = None ->
  forall j, 1 <= j <= k -> starts_with L2 (drop j s) = false.
Proof.
  induction k as [| k IH]; [intros _ j; lia |]. cbn [backtrack].
  destruct (starts_with L2 (drop (S k) s)) eqn:E; [done |].
  intros H j Hj. destruct (decide (j = S k)) as [-> | Hne]; [done |].
  apply IH; [done | lia].
Qed.

(** A match at the start of [s], seen from the matcher's side. *)
Lemma match_here_inv (s g : list ascii) :
  match_here p s g ->
  starts_with (lit1 p) s = true /\
  let rest := drop (length (lit1 p)) s in
  1 <= length g <= span (cls p) rest /\ g = take (length g) rest /\
  starts_with (lit2 p) (drop (length g) rest) = true.
Proof.
  intros (post & -> & Hne & Hcls). split.
  - apply starts_with_spec. by eexists.
  - cbv zeta. rewrite drop_app_length. split_and!.
    + destruct g; [done | simpl; lia].
    + by apply span_max.
    + by rewrite take_app_length.
    + rewrite drop_app_length. apply starts_with_spec. by eexists.
Qed.

Lemma match_at_Some (s g : list ascii) :
  match_at p s = Some g ->
  match_here p s g /\ forall g', match_here p s g' -> length g' <= length g.
Proof.
  unfold match_at. destruct (starts_with (lit1 p) s) eqn:E1; [| done].
  apply starts_with_spec in E1 as [rest ->]. rewrite drop_app_length.
  intros H. apply backtrack_Some in H as (j & Hj & -> & Hs & Hmax).
  pose proof (span_le (cls p) rest) as Hle.
  apply starts_with_spec in Hs as [post Hpost].
  assert (Hlen : length (take j rest) = j) by (rewrite length_take; lia).
  split.
  - exists post. split_and!.
    + by rewrite <- Hpost, take_drop.
    + intros Hnil. rewrite Hnil in Hlen. simpl in Hlen. lia.
    + apply span_Forall. lia.
  - intros g' Hg'. apply match_here_inv in Hg' as (_ & Hg').
    cbv zeta in Hg'. rewrite drop_app_length in Hg'.
    destruct Hg' as ((_ & Hsp) & _ & Hs').
    rewrite Hlen. destruct (decide (length g' <= j)) as [| Hgt]; [done |].
    rewrite Hmax in Hs' by lia. done.
Qed.

Lemma match_at_None (s g : list ascii) :
  match_at p s = None -> ~ match_here p s g.
Proof.
  unfold match_at. intros H Hg. apply match_here_inv in Hg as (E1 & Hg).
  cbv zeta in Hg. destruct Hg as (Hj & _ & Hs). rewrite E1 in H.
  rewrite (backtrack_None _ _ _ H (length g) Hj) in Hs. done.
Qed.

Lemma search_from_Some (s g : list ascii) :
  search_from p s = Some g ->
  exists pre rest,
    s = pre ++ rest /\ match_at p rest = Some g /\
    forall pre' rest', s = pre' ++ rest' -> length pre' < length pre ->
      match_at p rest' = None.
Proof.
  induction s as [| c s IH]; cbn [search_from].
  - destruct (match_at p []) as [g' |] eqn:E; [| done].
    intros [= ->]. exists [], []. split_and!; try done. intros ? ? _ H. simpl in H. lia.
  - destruct (match_at p (c :: s)) as [g' |] eqn:E.
    + intros [= ->]. exists [], (c :: s). split_and!; try done.
      intros ? ? _ H. simpl in H. lia.
    + intros H. destruct (IH H) as (pre & rest & -> & Hm & Hleft).
      exists (c :: pre), rest. split_and!; try done.
      intros pre' rest' Heq Hlt. destruct pre' as [| c' pre'].
      * simpl in Heq. by subst rest'.
      * simpl in Heq. inversion Heq; subst. apply (Hleft pre' rest'); [done |].
        simpl in Hlt. lia.
Qed.

Lemma search_from_None (s : list ascii) :
  search_from p s = None ->
  forall pre rest, s = pre ++ rest -> match_at p rest = None.
Proof.
  induction s as [| c s IH]; cbn [search_from].
  - destruct (match_at p []) eqn:E; [done |]. intros _ pre rest Heq.
    symmetry in Heq. apply app_eq_nil in Heq as [_ ->]. done.
  - destruct (match_at p (c :: s)) eqn:E; [done |]. intros H pre rest Heq.
    destruct pre as [| c' pre].
    + simpl in Heq. by subst rest.
    + simpl in Heq. inversion Heq; subst. by apply (IH H pre rest).
Qed.

End Matcher.

Lemma match_here_group_unique (p : pattern) (s g g' : list ascii) :
  match_here p s g -> match_here p s g' -> length g = length g' -> g = g'.
Proof.
  intros (post & -> & _) (post' & Heq & _) Hlen.
  apply app_inv_head in Heq. by apply app_inj_1 in Heq as [-> _].
Qed.

Lemma search_from_spec (p : pattern) (s g : list ascii) :
  search_from p s = Some g <-> leftmost_longest p s g.
Proof.
  split.
  - intros H. apply search_from_Some in H as (pre & rest & -> & Hm & Hleft).
    apply match_at_Some in Hm as [Hm Hmax].
    exists pre, rest. split_and!; try done.
    intros pre' rest' g' Heq Hlt. apply match_at_None. by apply (Hleft pre' rest').
  - intros (pre & rest & -> & Hm & Hmax & Hleft).
    destruct (search_from p (pre ++ rest)) as [g1 |] eqn:E.
    + apply search_from_Some in E as (pre1 & rest1 & Heq & Hm1 & Hleft1).
      pose proof Hm1 as Hm1'. apply match_at_Some in Hm1' as [Hh1 Hmax1].
      destruct (lt_eq_lt_dec (length pre1) (length pre)) as [[Hlt | Heqlen] | Hgt].
      * by destruct (Hleft pre1 rest1 g1 Heq Hlt).
      * symmetry in Heqlen. apply app_inj_1 in Heq as [-> ->]; [| done].
        f_equal. apply (match_here_group_unique p rest1); try done.
        apply Nat.le_antisymm; [by apply Hmax | by apply Hmax1].
      * pose proof (Hleft1 pre rest eq_refl Hgt) as Hnone.
        by destruct (match_at_None p rest g Hnone).
    + pose proof (search_from_None p _ E pre rest eq_refl) as Hnone.
      by destruct (match_at_None p rest g Hnone).
Qed.

Lemma search_from_None_spec (p : pattern) (s : list ascii) :
  search_from p s = None <->
  forall pre rest g, s = pre ++ rest -> ~ match_here p rest g.
Proof.
  split.
  - intros H pre rest g Heq. by apply match_at_None, (search_from_None p s H pre rest).
  - intros H. destruct (search_from p s) as [g |] eqn:E; [| done].
    apply search_from_Some in E as (pre & rest & Heq & Hm & _).
    apply match_at_Some in Hm as [Hm _]. by destruct (H pre rest g Heq).
Qed.

Lemma re_search_Some (p : pattern) (s g : string) :
  re_search p s = Some g <->
  leftmost_longest p (list_ascii_of_string s) (list_ascii_of_string g).
Proof.
  unfold re_search. rewrite <- search_from_spec. split.
  - destruct (search_from p (list_ascii_of_string s)) as [g' |]; [| done].
    intros [= <-]. by rewrite list_ascii_of_string_of_list_ascii.
  - intros ->. simpl. by rewrite string_of_list_ascii_of_string.
Qed.

Lemma re_search_None (p : pattern) (s : string) :
  re_search p s = None <->
  forall pre rest g, list_ascii_of_string s = pre ++ rest -> ~ match_here p rest g.
Proof.
  unfold re_search. rewrite <- search_from_None_spec.
  destruct (search_from p (list_ascii_of_string s)); simpl; split; done.
Qed.

(** X1: [re_search] finds the group of the leftmost match, greedy group
    longest, exactly as the semantics of [L1 (C+) L2] under [re.search]
    prescribes, and it answers [None] exactly when the pattern matches at
    no position. *)
Theorem X1_re_search_is_leftmost_longest (p : pattern) (s : string) :
  (forall g : string,
     re_search p s = Some g <->
     leftmost_longest p (list_ascii_of_string s) (list_ascii_of_string g))
  /\
  (re_search p s = None <->
   forall pre rest g, list_ascii_of_string s = pre ++ rest -> ~ match_here p rest g).
Proof. split; [intros g; apply re_search_Some | apply re_search_None]. Qed.

(** ** Task and model type *)




(** X3: in the model-loading block, with a model path [p]: when
    [teacher_(.+)_] matches, the model type is its group and [is_teacher]
    becomes true; otherwise, when [student_(.+)_] matches, the model type
    is that group and [is_teacher] becomes false; this holds however the
    rest of the block ends.  When neither matches the block raises
    [AttributeError] with nothing assigned.  The block changes no other
    argument, binds [model] only after [model_type], and leaves [model]
    bound whenever it completes. *)
Theorem X3_model_type_resolution {Score StateDict : Type} (lib : Env Score StateDict)
    (args : Args) (p : string) (evs : list (event Score)) (fr : frame) (r : res unit) :
  model_path args = Some p ->
  load_model_try lib (mk_frame args None None) = (evs, fr, r) ->
  (task (fr_args fr) = task args /\ model_path (fr_args fr) = Some p /\
   exp_type (fr_args fr) = exp_type args /\ debug (fr_args fr) = debug args) /\
  (is_Some (fr_model fr) -> is_Some (fr_model_type fr)) /\
  (r = Ret tt -> is_Some (fr_model fr)) /\
  match re_search teacher_pat p with
  | Some g => fr_model_type fr = Some g /\ is_teacher (fr_args fr) = true
  | None =>
      match re_search student_pat p with
      | Some g => fr_model_type fr = Some g /\ is_teacher (fr_args fr) = false
      | None =>
          fr = mk_frame args None None /\ evs = [] /\
          r = Exc (mk_exn AttributeError "'NoneType' object has no attribute 'group'")
      end
  end.
Proof.
  intros Hp. unfold load_model_try. cbv zeta. cbn [fr_args fr_model fr_model_type].
  rewrite Hp. cbn [re_search_arg and_then default].
  assert (Hsome : forall A (x : A), is_Some (Some x)) by (intros; by eexists).
  assert (Hnone : forall A, is_Some (None : option A) -> False)
    by (intros A [x Hx]; done).
  pose (n := num_labels_for (task args)). fold n.
  destruct (re_search teacher_pat p) as [g |];
    [| destruct (re_search student_pat p) as [g |]]; simpl;
    try (destruct (from_pretrained lib g n) as [m | e |]; simpl;
         [destruct (torch_load lib p) as [sd | e |]; simpl;
          [destruct (load_state_dict lib m sd) as [m' [e |]]; simpl | |] | |]);
    intros Heq; inversion Heq; subst; clear Heq; simpl;
    split_and!; try done; try (intros _; apply Hsome); try (intros H; by apply Hnone in H).
Qed.

Lemma X3_witness :
  fr_model_type (Score := Z)
    (load_model_try Demo.demo_lib (mk_frame Demo.demo_run_args None None)).1.2
  = Some "distilbert-base-uncased"
  /\ is_teacher
       (fr_args (load_model_try Demo.demo_lib (mk_frame Demo.demo_run_args None None)).1.2)
     = false.
Proof.
  assert (Hp : model_path Demo.demo_run_args = Some Demo.demo_ckpt) by reflexivity.
  destruct (load_model_try Demo.demo_lib (mk_frame Demo.demo_run_args None None))
    as [[evs fr] r] eqn:E.
  pose proof (X3_model_type_resolution Demo.demo_lib Demo.demo_run_args Demo.demo_ckpt
                evs fr r Hp E) as (_ & _ & _ & H).
  assert (Ht : re_search teacher_pat Demo.demo_ckpt = None) by (vm_compute; reflexivity).
  assert (Hs : re_search student_pat Demo.demo_ckpt = Some "distilbert-base-uncased")
    by (vm_compute; reflexivity).
  rewrite Ht, Hs in H. exact H.
Defined.

(** ** The two prediction closures *)



(** X5: a model whose prefix is "bert" is given the tokenizer's output as
    it is.  Any other model is given it without "token_type_ids" and with
    every other entry unchanged; when the tokenizer produced no
    "token_type_ids" the prediction function raises [KeyError] instead. *)
Theorem X5_predict_func_token_type_ids {Score : Type} (model : Model Score)
    (tokenizer : Tokenizer) (x : list string) (inputs : encoding) :
  tokenize tokenizer x = Ret inputs ->
  (base_model_prefix model = "bert" -> model_inputs model inputs = Ret inputs)
  /\
  (base_model_prefix model <> "bert" ->
   match inputs !! "token_type_ids" with
   | Some _ =>
       exists inputs', model_inputs model inputs = Ret inputs' /\
         inputs' !! "token_type_ids" = None /\
         forall k, k <> "token_type_ids" -> inputs' !! k = inputs !! k
   | None =>
       predict_func model tokenizer x = Exc (mk_exn KeyError "token_type_ids")
   end).
Proof.
  intros Ht. unfold model_inputs, predict_func. split.
  - intros Hb. by rewrite bool_decide_eq_false_2 by (by intros []).
  - intros Hb. rewrite Ht. simpl. unfold model_inputs.
    rewrite bool_decide_eq_true_2 by done. unfold pop.
    destruct (inputs !! "token_type_ids") as [v |] eqn:E; [| done].
    eexists. split; [done |]. split.
    + apply lookup_delete_eq.
    + intros k Hk. by apply lookup_delete_ne.
Qed.

Lemma X5_witness :
  exists inputs' : encoding,
    model_inputs Demo.demo_distil
      ({[ "input_ids" := [[4%Z]]; "token_type_ids" := [[0%Z]] ]} : encoding)
    = Ret inputs' /\ inputs' !! "token_type_ids" = None /\
    forall k, k <> "token_type_ids" ->
      inputs' !! k
      = ({[ "input_ids" := [[4%Z]]; "token_type_ids" := [[0%Z]] ]} : encoding) !! k.
Proof.
  pose (tok := mk_Tokenizer
          (fun _ => Ret ({[ "input_ids" := [[4%Z]]; "token_type_ids" := [[0%Z]] ]}
                         : encoding))).
  exact (proj2 (X5_predict_func_token_type_ids Demo.demo_distil tok ["dull"] _ eq_refl)
           ltac:(discriminate)).
Defined.

(** X6: the prediction closure of [run_lime] returns the softmax of all the
    logits, whatever the number of labels, and it does so exactly when
    tokenization and the forward pass return; it hands the model the
    tokenizer's output as it is when [is_teacher] is set and without
    "token_type_ids" otherwise. *)
Theorem X6_predictor {Score StateDict : Type} (lib : Env Score StateDict)
    (model : Model Score) (tokenizer : Tokenizer) (args : Args)
    (texts : list string) (probs : list (list Score)) :
  predictor lib model tokenizer args texts = Ret probs <->
  exists inputs rows,
    tokenize tokenizer texts = Ret inputs /\
    (is_teacher args = false -> is_Some (inputs !! "token_type_ids")) /\
    forward model
      (if is_teacher args then inputs else delete "token_type_ids" inputs) = Ret rows /\
    probs = softmax lib rows.
Proof.
  unfold predictor, logits, pop. rewrite rbind_Ret. split.
  - intros (inputs & Ht & H). exists inputs.
    destruct (is_teacher args); simpl in H.
    + apply rbind_Ret in H as (t & H & [= <-]).
      apply rbind_Ret in H as (rows & Hf & [= <-]).
      exists rows. by split_and!.
    + destruct (inputs !! "token_type_ids") as [v |]; [| done]. simpl in H.
      apply rbind_Ret in H as (t & H & [= <-]).
      apply rbind_Ret in H as (rows & Hf & [= <-]).
      exists rows. split_and!; first [done | intros _; by eexists].
  - intros (inputs & rows & Ht & Htti & Hf & ->). exists inputs. split; [done |].
    destruct (is_teacher args); simpl.
    + by rewrite Hf.
    + destruct (Htti eq_refl) as [v ->]. simpl. by rewrite Hf.
Qed.

(** ** The model that is loaded *)

Lemma num_labels_for_cases (t : string) :
  (num_labels_for t = 3 <-> startswith t "mnli" = true) /\
  (num_labels_for t = 1 <-> t = "stsb") /\
  (num_labels_for t = 2 <-> startswith t "mnli" = false /\ t <> "stsb").
Proof.
  unfold num_labels_for. destruct (startswith t "mnli") eqn:E.
  - split_and!.
    + split; done.
    + split; [lia | intros ->; simpl in E; discriminate].
    + split; [lia | intros [? _]; done].
  - case_bool_decide as Hs; split_and!.
    + split; [lia | done].
    + split; done.
    + split; [lia | intros [_ ?]; done].
    + split; [lia | done].
    + split; [lia | done].
    + split; done.
Qed.


(** X7: the model-loading block calls [from_pretrained] at most once, for
    the resolved model type and with 3 labels for a task whose name starts
    with "mnli", 1 label for "stsb" and 2 labels otherwise; when it made no
    such call, [model] is left unbound. *)
Theorem X7_requested_model {Score StateDict : Type} (lib : Env Score StateDict)
    (args : Args) (evs : list (event Score)) (fr : frame) (r : res unit) :
  load_model_try lib (mk_frame args None None) = (evs, fr, r) ->
  ((model_loads evs = [] /\ fr_model fr = None) \/
   exists mt, fr_model_type fr = Some mt /\
     model_loads evs = [(mt, num_labels_for (task args))])
  /\ (num_labels_for (task args) = 3 <-> startswith (task args) "mnli" = true)
  /\ (num_labels_for (task args) = 1 <-> task args = "stsb")
  /\ (num_labels_for (task args) = 2 <->
      startswith (task args) "mnli" = false /\ task args <> "stsb").
Proof.
  intros H. split; [| apply num_labels_for_cases].
  revert H. unfold load_model_try. cbv zeta. cbn [fr_args fr_model fr_model_type].
  pose (n := num_labels_for (task args)). fold n.
  destruct (model_path args) as [p |]; simpl; [| intros [= <- <- <-]; by left].
  destruct (match re_search teacher_pat p with
            | Some g => Ret (g, true)
            | None => let? g := group1 (re_search student_pat p) in Ret (g, false)
            end) as [[mt teacher] | e |]; simpl; [| intros [= <- <- <-]; by left ..].
  destruct (from_pretrained lib mt n) as [m0 | e |]; simpl.
  - destruct (torch_load lib p) as [sd | e |]; simpl;
      [destruct (load_state_dict lib m0 sd) as [m' [e |]]; simpl | |];
      intros [= <- <- <-]; right; by exists mt.
  - intros [= <- <- <-]. right. by exists mt.
  - intros [= <- <- <-]. right. by exists mt.
Qed.

Lemma X7_witness :
  model_loads (Score := Z)
    (load_model_try Demo.demo_lib (mk_frame Demo.demo_run_args None None)).1.1
  = [("distilbert-base-uncased", 2)].
Proof.
  destruct (load_model_try Demo.demo_lib (mk_frame Demo.demo_run_args None None))
    as [[evs fr] r] eqn:E.
  destruct (X7_requested_model Demo.demo_lib Demo.demo_run_args evs fr r E)
    as [[[_ Hnone] | (mt & Hmt & Hl)] _].
  - exfalso. revert E. vm_compute. intros [= <- <- <-]. discriminate Hnone.
  - simpl. rewrite Hl. revert E Hmt. vm_compute. intros [= <- <- <-] [= <-]. reflexivity.
Defined.




(** ** Loops that stop early *)

Section EarlyExit.

Context {Score A : Type}.
Variable key : A -> nat.
Variable entry : A -> M Score (record Score).

Lemma insert_step_log (x : A) (acc : results Score) :
  log (insert_step key entry x acc) = log (entry x).
Proof.
  unfold insert_step. rewrite log_bind.
  destruct (outcome (entry x)); simpl; by rewrite app_nil_r.
Qed.

Lemma insert_step_outcome (x : A) (acc : results Score) :
  outcome (insert_step key entry x acc) =
  match outcome (entry x) with
  | Ret rec => Ret (<[key x := rec]> acc)
  | Exc e => Exc e
  | Timeout => Timeout
  end.
Proof. unfold insert_step. rewrite outcome_bind. by destruct (outcome (entry x)). Qed.

(** The loop stops at the first iteration that does not return: its log is
    the logs of the iterations up to and including that one, its outcome is
    that iteration's. *)
Lemma insert_loop_stops (l1 l2 : list A) (x : A) (acc : results Score) :
  Forall (fun y => exists rec, outcome (entry y) = Ret rec) l1 ->
  (forall rec, outcome (entry x) <> Ret rec) ->
  log (for_each (l1 ++ x :: l2) (insert_step key entry) acc) =
    concat ((fun y => log (entry y)) <$> (l1 ++ [x])) /\
  match outcome (entry x) with
  | Ret _ => False
  | Exc e => outcome (for_each (l1 ++ x :: l2) (insert_step key entry) acc) = Exc e
  | Timeout => outcome (for_each (l1 ++ x :: l2) (insert_step key entry) acc) = Timeout
  end.
Proof.
  intros Hl1 Hx. revert acc. induction Hl1 as [| y l1 [rec Hy] _ IH]; intros acc.
  - simpl app. rewrite for_each_cons, log_bind, outcome_bind.
    rewrite insert_step_log, insert_step_outcome.
    destruct (outcome (entry x)) as [rec | e |] eqn:E; [by destruct (Hx rec) | |];
      simpl; by rewrite !app_nil_r.
  - simpl app. rewrite for_each_cons, log_bind, outcome_bind.
    rewrite insert_step_log, insert_step_outcome, Hy.
    destruct (IH (<[key y := rec]> acc)) as [-> IH2].
    split; [done |]. by destruct (outcome (entry x)).
Qed.

(** A loop runs out of fuel only if one of its iterations does. *)
Lemma insert_loop_timeout (l : list A) (acc : results Score) :
  outcome (for_each l (insert_step key entry) acc) = Timeout ->
  exists x, x ∈ l /\ outcome (entry x) = Timeout.
Proof.
  revert acc. induction l as [| x l IH]; intros acc; [done |].
  rewrite for_each_cons, outcome_bind, insert_step_outcome.
  destruct (outcome (entry x)) as [rec | e |] eqn:E; simpl; [| done |].
  - intros H. destruct (IH _ H) as (y & Hy & Ht). exists y. split; [| done].
    by apply elem_of_cons; right.
  - intros _. exists x. split; [by apply elem_of_cons; left | done].
Qed.

End EarlyExit.

(** ** run_shap: termination and failures *)

Section ShapFailures.

Context {Score StateDict : Type}.
Variable lib : Env Score StateDict.
Variable model : Model Score.
Variable tokenizer : Tokenizer.
Variable args : Args.

Lemma column_not_timeout (ds : dataset Score) (k : string) : column ds k <> Timeout.
Proof.
  destruct ds as [t | d | rows]; simpl; unfold getkey; try done.
  - by destruct (columns t !! k).
  - by destruct (d !! k).
Qed.

Lemma shap_record_not_timeout (texts_ labels_ : list (value Score))
    (e : Explanation Score) (j : nat) :
  shap_record texts_ labels_ e j <> Timeout.
Proof.
  unfold shap_record, getitem.
  destruct (texts_ !! j); simpl; [| done].
  destruct (data e !! j); simpl; [| done].
  destruct (values e !! j); simpl; [| done].
  destruct (labels_ !! j); simpl; [| done].
  by destruct (base_values e !! j).
Qed.

Lemma shap_entry_timeout (explainer : list (value Score) -> res (Explanation Score))
    (texts labels : list (value Score)) (i : nat) :
  outcome (shap_entry explainer texts labels i) = Timeout ->
  explainer (slice texts i (i + bsize)) = Timeout.
Proof.
  unfold shap_entry. cbv zeta. rewrite outcome_bind. cbn [emit outcome snd].
  rewrite outcome_bind. cbn [call lift outcome snd].
  destruct (explainer (slice texts i (i + bsize))) as [e | e |]; [| done ..].
  intros H. by apply shap_record_not_timeout in H.
Qed.

Lemma run_shap_run (ds : dataset Score) :
  match column ds "sentence", column ds "label" with
  | Ret texts, Ret labels =>
      run_shap lib model tokenizer ds args =
      for_each (seq 0 (length texts))
        (insert_step id (shap_entry (shap_explainer_of lib model tokenizer) texts labels)) ∅
  | Ret _, Exc e => run_shap lib model tokenizer ds args = ([], Exc e)
  | Exc e, _ => run_shap lib model tokenizer ds args = ([], Exc e)
  | _, _ => True
  end.
Proof.
  destruct (column ds "sentence") as [texts | e |] eqn:Ht;
    [| unfold run_shap; cbv zeta; by rewrite Ht | done].
  destruct (column ds "label") as [labels | e |] eqn:Hl;
    [by apply run_shap_for_each
    | unfold run_shap; cbv zeta; by rewrite Ht, bind_lift_ret, Hl | done].
Qed.

End ShapFailures.

(** X9: the [while] loop of [run_shap] always ends: [run_shap] runs out of
    fuel only if the explainer itself does not return on some batch. *)
Theorem X9_run_shap_terminates {Score StateDict : Type} (lib : Env Score StateDict)
    (model : Model Score) (tokenizer : Tokenizer) (args : Args) (ds : dataset Score) :
  (forall texts_, shap_explainer_of lib model tokenizer texts_ <> Timeout) ->
  outcome (run_shap lib model tokenizer ds args) <> Timeout.
Proof.
  intros Hex H. pose proof (run_shap_run lib model tokenizer args ds) as Hrun.
  pose proof (column_not_timeout ds "sentence") as Hs.
  pose proof (column_not_timeout ds "label") as Hl.
  destruct (column ds "sentence") as [texts | e |]; [| by rewrite Hrun in H | done].
  destruct (column ds "label") as [labels | e |]; [| by rewrite Hrun in H | done].
  rewrite Hrun in H. apply insert_loop_timeout in H as (i & _ & Hi).
  apply shap_entry_timeout in Hi. by apply Hex in Hi.
Qed.

(** X10: [run_shap] stops at the first batch on which the explainer raises:
    it raises that exception, returns no mapping, and the explainer has
    been called on the windows 0 .. k and on no later one. *)
Theorem X10_run_shap_stops_at_first_failure {Score StateDict : Type}
    (lib : Env Score StateDict) (model : Model Score) (tokenizer : Tokenizer)
    (args : Args) (ds : dataset Score) (texts labels : list (value Score))
    (k : nat) (e : exn) :
  column ds "sentence" = Ret texts ->
  column ds "label" = Ret labels ->
  length labels = length texts ->
  k < length texts ->
  shap_explains (shap_explainer_of lib model tokenizer) (take k texts) ->
  shap_explainer_of lib model tokenizer (slice texts k (k + bsize)) = Exc e ->
  outcome (run_shap lib model tokenizer ds args) = Exc e /\
  shap_calls (log (run_shap lib model tokenizer ds args)) =
  (fun i => slice texts i (i + bsize)) <$> seq 0 (S k).
Proof.
  intros Ht Hl Hlen Hk Hok Hfail.
  rewrite (run_shap_for_each _ _ _ _ _ _ _ Ht Hl).
  assert (Hseq : seq 0 (length texts) = seq 0 k ++ k :: seq (S k) (length texts - S k)).
  { replace (length texts) with (k + S (length texts - S k)) at 1 by lia.
    by rewrite seq_app. }
  rewrite Hseq. clear Hseq.
  set (entry := shap_entry (shap_explainer_of lib model tokenizer) texts labels).
  assert (Hx : outcome (entry k) = Exc e).
  { unfold entry, shap_entry. cbv zeta. rewrite outcome_bind. cbn [emit outcome snd].
    rewrite outcome_bind. cbn [call outcome snd]. by rewrite Hfail. }
  destruct (insert_loop_stops id entry (seq 0 k) (seq (S k) (length texts - S k)) k ∅)
    as [Hlog Hout].
  - apply Forall_forall. intros i Hi. apply elem_of_seq in Hi.
    destruct (lookup_lt_is_Some_2 texts i ltac:(lia)) as [t Hti].
    destruct (lookup_lt_is_Some_2 labels i ltac:(lia)) as [l Hli].
    assert (Htk : take k texts !! i = Some t) by (rewrite lookup_take_lt by lia; done).
    destruct (Hok i t Htk) as (ex & He & [d Hd] & [v Hv] & [b Hb]).
    exists (shap_fields t l d v b). apply shap_entry_Ret.
    exists ex, t, d, v, l, b. rewrite (slice_singleton _ _ _ Hti). done.
  - intros rec. by rewrite Hx.
  - rewrite Hx in Hout. split; [done |].
    rewrite Hlog. unfold entry. rewrite shap_calls_entries.
    by rewrite seq_S.
Qed.
